(** * meal_prep: the measure parser and the Mongo/Redis meal store

  A shallow embedding of two pieces of the repository:

  - [parseMeasure], the closure inside [ImportMealHandler]
    (package [recipes]) that splits a free-text measure into a quantity
    and a unit with one regular expression;
  - [New], [ImportFromFile] and [GetMealByID] of package [mongo]
    (internal/mongo/store.go), the upsert loop and the cache-aside read.

  Go strings are byte strings: they are modelled by [string], one [ascii]
  per byte.  Go maps with string keys are [gmap string _]. *)

From Stdlib Require Import Ascii String List Arith Lia ZArith Bool DecimalString Sorted.
From stdpp Require Import base option list strings gmap fin_maps.

Import ListNotations.
Local Open Scope string_scope.
Local Open Scope list_scope.

(** ** Package [strings] (Go standard library), as far as the parser uses it *)

Module GoStrings.

Definition byte (n : N) : ascii := ascii_of_N n.

Fixpoint bytes (l : list N) : string :=
  match l with
  | [] => EmptyString
  | n :: l' => String (byte n) (bytes l')
  end.

(** [asciiSpace] of strings.go: '\t', '\n', '\v', '\f', '\r', ' '. *)
Definition asciiSpace (c : ascii) : bool :=
  let n := N_of_ascii c in
  ((9 <=? n) && (n <=? 13) || (n =? 32))%N.

(** The code points of [unicode.White_Space] above U+007F, in UTF-8:
    U+0085, U+00A0, U+1680, U+2000..U+200A, U+2028, U+2029, U+202F,
    U+205F, U+3000. *)
Definition unicode_space_utf8 : list string :=
  map bytes
    [ [0xC2; 0x85]; [0xC2; 0xA0]; [0xE1; 0x9A; 0x80];
      [0xE2; 0x80; 0x80]; [0xE2; 0x80; 0x81]; [0xE2; 0x80; 0x82];
      [0xE2; 0x80; 0x83]; [0xE2; 0x80; 0x84]; [0xE2; 0x80; 0x85];
      [0xE2; 0x80; 0x86]; [0xE2; 0x80; 0x87]; [0xE2; 0x80; 0x88];
      [0xE2; 0x80; 0x89]; [0xE2; 0x80; 0x8A]; [0xE2; 0x80; 0xA8];
      [0xE2; 0x80; 0xA9]; [0xE2; 0x80; 0xAF]; [0xE2; 0x81; 0x9F];
      [0xE3; 0x80; 0x80] ]%N.

Definition HasPrefix (s p : string) : bool := String.prefix p s.

Fixpoint drop (n : nat) (s : string) : string :=
  match n, s with
  | S n', String _ s' => drop n' s'
  | _, _ => s
  end.

Fixpoint rev_onto (s acc : string) : string :=
  match s with
  | EmptyString => acc
  | String c s' => rev_onto s' (String c acc)
  end.

Definition rev (s : string) : string := rev_onto s EmptyString.

(** Width in bytes of the white-space rune at the head of [s] when the
    runes of [s] are laid out as in [pats]; 0 when [s] does not start
    with white space. *)
Definition space_width (pats : list string) (s : string) : nat :=
  match s with
  | EmptyString => 0
  | String c _ =>
      if asciiSpace c then 1
      else match List.find (HasPrefix s) pats with
           | Some p => String.length p
           | None => 0
           end
  end.

Fixpoint trim_left (pats : list string) (fuel : nat) (s : string) : string :=
  match fuel with
  | 0 => s
  | S fuel' =>
      match space_width pats s with
      | 0 => s
      | w => trim_left pats fuel' (drop w s)
      end
  end.

(** [strings.TrimLeftFunc(s, unicode.IsSpace)]. *)
Definition TrimLeftSpace (s : string) : string :=
  trim_left unicode_space_utf8 (String.length s) s.

(** [strings.TrimRightFunc(s, unicode.IsSpace)]: the same scan from the
    end, on the reversed bytes. *)
Definition TrimRightSpace (s : string) : string :=
  rev (trim_left (map rev unicode_space_utf8) (String.length s) (rev s)).

(** [strings.TrimSpace]: leading and trailing white space, as defined by
    Unicode, removed. *)
Definition TrimSpace (s : string) : string :=
  TrimRightSpace (TrimLeftSpace s).

(** [strings.Contains(s, substr)]. *)
Fixpoint Contains (s substr : string) : bool :=
  HasPrefix s substr ||
  match s with
  | EmptyString => false
  | String _ s' => Contains s' substr
  end.

Definition lower_byte (c : ascii) : ascii :=
  let n := N_of_ascii c in
  if ((65 <=? n) && (n <=? 90))%N then ascii_of_N (n + 32) else c.

(** [strings.ToLower], on the bytes below 0x80, where it maps 'A'..'Z'
    to 'a'..'z'.  Non-ASCII runes are left as they are: the library
    lowers them to runes that are again non-ASCII, or to 'i' (U+0130)
    and 'k' (U+212A); the parser only searches the result for the ASCII
    needle " or ", which no such rune can complete or break. *)
Fixpoint ToLower (s : string) : string :=
  match s with
  | EmptyString => EmptyString
  | String c s' => String (lower_byte c) (ToLower s')
  end.

End GoStrings.

(** ** Package [regexp]: leftmost-first matching with submatches

  Go's [regexp] returns, among the matches that start leftmost, the one a
  backtracking engine finds first.  [run r st] lists the states in which
  a match of [r] started in [st] can end, in the order in which a
  backtracking engine tries them; the head of the list is the preferred
  match. *)

Module Regexp.

Inductive regex : Type :=
| Empty
| Char (p : ascii -> bool)      (* a class of bytes: [0-9], \s, /, \., . *)
| Seq (r1 r2 : regex)
| Alt (r1 r2 : regex)           (* r1|r2, r1 preferred *)
| Star (r : regex)              (* r*, greedy *)
| Plus (r : regex)              (* r+, greedy *)
| Quest (r : regex)             (* r?, greedy *)
| Group (i : nat) (r : regex)   (* i-th capturing group *)
| Bol                           (* ^ without the m flag: start of text *)
| Eol.                          (* $ without the m flag: end of text *)

(** A position in the text: the offset, what is left to read, and the
    bounds of the groups closed so far (most recent first). *)
Record mstate : Type := MState {
  pos : nat;
  rest : string;
  caps : list (nat * (nat * nat))
}.

Definition advance (st : mstate) (s' : string) : mstate :=
  MState (S (pos st)) s' (caps st).

Definition close (i start : nat) (st : mstate) : mstate :=
  MState (pos st) (rest st) ((i, (start, pos st)) :: caps st).

(** Greedy iteration of [step]; an iteration that consumes nothing is
    not repeated. *)
Fixpoint star (step : mstate -> list mstate) (fuel : nat) (st : mstate)
  : list mstate :=
  match fuel with
  | 0 => [st]
  | S fuel' =>
      flat_map (fun st' =>
                  if Nat.ltb (String.length (rest st')) (String.length (rest st))
                  then star step fuel' st' else [])
               (step st)
      ++ [st]
  end.

Fixpoint run (r : regex) (st : mstate) : list mstate :=
  match r with
  | Empty => [st]
  | Char p =>
      match rest st with
      | String c s' => if p c then [advance st s'] else []
      | EmptyString => []
      end
  | Seq r1 r2 => flat_map (run r2) (run r1 st)
  | Alt r1 r2 => run r1 st ++ run r2 st
  | Star r' => star (run r') (String.length (rest st)) st
  | Plus r' =>
      flat_map (fun st' => star (run r') (String.length (rest st')) st')
               (run r' st)
  | Quest r' => run r' st ++ [st]
  | Group i r' => map (close i (pos st)) (run r' st)
  | Bol => if Nat.eqb (pos st) 0 then [st] else []
  | Eol => match rest st with EmptyString => [st] | _ => [] end
  end.

Fixpoint lookup_cap (i : nat) (cs : list (nat * (nat * nat)))
  : option (nat * nat) :=
  match cs with
  | [] => None
  | (j, b) :: cs' => if Nat.eqb i j then Some b else lookup_cap i cs'
  end.

Definition slice (text : string) (b : nat * nat) : string :=
  String.substring (fst b) (snd b - fst b) text.

(** Text of group [i]; the empty string for a group that took no part
    in the match. *)
Definition submatch (text : string) (st : mstate) (i : nat) : string :=
  match lookup_cap i (caps st) with
  | Some b => slice text b
  | None => EmptyString
  end.

(** Leftmost search: the first start offset at which [re] matches. *)
Fixpoint find_from (re : regex) (fuel start : nat) (s : string)
  : option (nat * mstate) :=
  match run re (MState start s []) with
  | st :: _ => Some (start, st)
  | [] =>
      match fuel, s with
      | S fuel', String _ s' => find_from re fuel' (S start) s'
      | _, _ => None
      end
  end.

(** The method [FindStringSubmatch] of a compiled pattern: the whole match followed by the
    [ngroups] submatches, or [nil] (the empty list) when there is no
    match. *)
Definition FindStringSubmatch (re : regex) (ngroups : nat) (s : string)
  : list string :=
  match find_from re (String.length s) 0 s with
  | Some (start, st) =>
      slice s (start, pos st) :: map (submatch s st) (seq 1 ngroups)
  | None => []
  end.

(** The classes of the measure pattern.  [\s] is the Perl class
    [\t\n\f\r ]; [.] is any character but a line feed. *)
Definition is_digit (c : ascii) : bool :=
  let n := N_of_ascii c in ((48 <=? n) && (n <=? 57))%N.

Definition is_space (c : ascii) : bool :=
  let n := N_of_ascii c in
  ((n =? 9) || (n =? 10) || (n =? 12) || (n =? 13) || (n =? 32))%N.

Definition is_char (a c : ascii) : bool := Ascii.eqb a c.

Definition any_char (c : ascii) : bool := negb (N_of_ascii c =? 10)%N.

Definition digits : regex := Plus (Char is_digit).
Definition spaces1 : regex := Plus (Char is_space).
Definition fraction : regex := Seq digits (Seq (Char (is_char "/")) digits).

(** First alternative, "[0-9]+(?:\s+[0-9]+/[0-9]+)?" *)
Definition alt_mixed : regex := Seq digits (Quest (Seq spaces1 fraction)).
(** Second alternative, "[0-9]+/[0-9]+" *)
Definition alt_fraction : regex := fraction.
(** Third alternative, "[0-9]+(?:\.[0-9]+)?" *)
Definition alt_decimal : regex :=
  Seq digits (Quest (Seq (Char (is_char ".")) digits)).

(** The pattern compiled by [parseMeasure], token by token:
    "^"  "("  first "|" second "|" third  ")"  "(?:" "\s*" ")"
    "(" ".*" ")"  "$".  The groups "(?:" ... ")" do not capture. *)
Definition measure_re : regex :=
  Seq Bol
    (Seq (Group 1 (Alt alt_mixed (Alt alt_fraction alt_decimal)))
       (Seq (Star (Char is_space))
          (Seq (Group 2 (Star (Char any_char))) Eol))).

End Regexp.

(** ** Package [recipes]: the measure parser of [ImportMealHandler] *)

Module Recipes.
Import GoStrings Regexp.

(** A [*string] result: [None] is the nil pointer. *)
Definition parseMeasure (m : string) : option string * option string :=
  let s := TrimSpace m in
  if String.eqb s "" then (None, None)
  else if Contains s "(" || Contains (ToLower s) " or " then (Some s, None)
  else
    let mparts := FindStringSubmatch measure_re 2 s in
    if Nat.eqb (length mparts) 3 then
      let q := TrimSpace (nth 1 mparts "") in
      let u := TrimSpace (nth 2 mparts "") in
      if String.eqb u "" then (Some q, None) else (Some q, Some u)
    else (Some s, None).

End Recipes.

(** ** Values, errors and the world outside the process *)

Module Values.

(** [time.Time] and [time.Duration], in nanoseconds. *)
Abbreviation Time := Z.
Definition Hour : Z := 3600 * 1000000000.

#[local] Set Warnings "-register-all".

(** What an [interface{}] holds in this program: the values the JSON
    decoder produces, and the two further kinds found in a stored
    document. *)
Inductive value : Type :=
| VNil                              (* nil: JSON null, or a missing key *)
| VBool (b : bool)
| VFloat64 (bits : Z)               (* a float64, by its IEEE 754 bits *)
| VString (s : string)
| VArray (l : list value)
| VMap (m : gmap string value)      (* map[string]interface{}, bson.M *)
| VTime (t : Time)                  (* time.Time *)
| VObjectID (n : nat).              (* the _id the server assigns *)

(** A Go [error]: an error of a library, by its text, or an error
    wrapped by [fmt.Errorf(prefix + ": %w", err)]. *)
Inductive error : Type :=
| Err (text : string)
| Wrapf (prefix : string) (err : error).

Fixpoint Error (e : error) : string :=
  match e with
  | Err text => text
  | Wrapf prefix err => prefix +:+ ": " +:+ Error err
  end.

Fixpoint error_eqb (a b : error) : bool :=
  match a, b with
  | Err s, Err t => String.eqb s t
  | Wrapf p a', Wrapf q b' => String.eqb p q && error_eqb a' b'
  | _, _ => false
  end.

Definition ErrNoDocuments : error := Err "mongo: no documents in result".
Definition redis_Nil : error := Err "redis: nil".

(** [m[k]] on a Go map: the zero value when the key is missing. *)
Definition index (m : gmap string value) (k : string) : value :=
  match m !! k with Some v => v | None => VNil end.

End Values.

Module World.
Import Values.

(** Log entries written through zap's sugared logger. *)
Inductive level : Type := ErrorLevel | WarnLevel.
Inductive field : Type := FString (s : string) | FError (e : error).
Record entry : Type := Entry {
  lvl : level;
  msg : string;
  fields : list (string * field)
}.

(** The calls the store makes to its two backends. *)
Inductive call : Type :=
| MongoUpdateOne (id : string)
| MongoFindOne (id : string)
| RedisGet (key : string)
| RedisSet (key : string) (ttl : Z).

(** The collection "meals": its documents in insertion order, and the
    next object id the server hands out. *)
Record collection : Type := Collection {
  docs : list (gmap string value);
  next_oid : nat
}.

Record world : Type := World {
  meals : collection;                       (* MongoDB *)
  cache : gmap string (string * Time);      (* Redis: value and expiry *)
  logs : list entry;                        (* log output *)
  calls : list call                         (* backend calls so far *)
}.

Definition with_meals (c : collection) (w : world) : world :=
  World c (cache w) (logs w) (calls w).
Definition with_cache (k : gmap string (string * Time)) (w : world) : world :=
  World (meals w) k (logs w) (calls w).
Definition write_log (e : entry) (w : world) : world :=
  World (meals w) (cache w) (logs w ++ [e]) (calls w).
Definition record_call (c : call) (w : world) : world :=
  World (meals w) (cache w) (logs w) (calls w ++ [c]).

(** *** MongoDB: the filter [{idMeal: id}], [$set] with upsert, FindOne *)

(** Documents are held as the Go values handed to the driver.  The BSON
    encoding on the way in and out is not modelled: the driver stores a
    nil slice as null and keeps a time to the millisecond, so in such
    fields what is read back can differ from what was written. *)

Definition has_id (id : string) (d : gmap string value) : bool :=
  match d !! "idMeal" with
  | Some (VString s) => String.eqb s id
  | _ => false
  end.

Definition find_id (id : string) (c : collection) : option (gmap string value) :=
  List.find (has_id id) (docs c).

(** [$set]: the fields of [upd] are written over the first matching
    document; its other fields stay. *)
Fixpoint set_first (id : string) (upd : gmap string value)
    (ds : list (gmap string value)) : option (list (gmap string value)) :=
  match ds with
  | [] => None
  | d :: ds' =>
      if has_id id d then Some ((upd ∪ d) :: ds')
      else match set_first id upd ds' with
           | Some ds'' => Some (d :: ds'')
           | None => None
           end
  end.

(** With the upsert option, a filter that matches nothing inserts the
    filter's field, the fields of [upd] and a fresh [_id]. *)
Definition upsert (id : string) (upd : gmap string value) (c : collection)
  : collection :=
  match set_first id upd (docs c) with
  | Some ds' => Collection ds' (next_oid c)
  | None =>
      Collection
        (docs c ++ [<["_id" := VObjectID (next_oid c)]>
                      (upd ∪ {["idMeal" := VString id]})])
        (S (next_oid c))
  end.

(** [coll.UpdateOne(ctx, {idMeal: id}, {$set: upd}, upsert)]; [fault] is
    the error of this call, if the backend fails it. *)
Definition UpdateOne (fault : option error) (id : string)
    (upd : gmap string value) (w : world) : world * option error :=
  let w' := record_call (MongoUpdateOne id) w in
  match fault with
  | Some err => (w', Some err)
  | None => (with_meals (upsert id upd (meals w')) w', None)
  end.

(** [coll.FindOne(ctx, {idMeal: id}).Decode(&result)]. *)
Definition FindOne (fault : option error) (id : string) (w : world)
  : world * (error + gmap string value) :=
  let w' := record_call (MongoFindOne id) w in
  match fault with
  | Some err => (w', inl err)
  | None =>
      match find_id id (meals w') with
      | Some d => (w', inr d)
      | None => (w', inl ErrNoDocuments)
      end
  end.

(** *** Redis: GET, and SET with an expiry *)

Definition redisGet (fault : option error) (now : Time) (key : string)
    (w : world) : world * (error + string) :=
  let w' := record_call (RedisGet key) w in
  match fault with
  | Some err => (w', inl err)
  | None =>
      match cache w' !! key with
      | Some (b, expiry) =>
          if (now <? expiry)%Z then (w', inr b) else (w', inl redis_Nil)
      | None => (w', inl redis_Nil)
      end
  end.

Definition redisSet (fault : option error) (now : Time) (key b : string)
    (ttl : Z) (w : world) : world * option error :=
  let w' := record_call (RedisSet key ttl) w in
  match fault with
  | Some err => (w', Some err)
  | None => (with_cache (<[key := (b, (now + ttl)%Z)]> (cache w')) w', None)
  end.

End World.

(** ** Package [mongo]: internal/mongo/store.go *)

Module Store.
Import Values World.

Inductive RedisClient : Type := NewClient (Addr : string).
Inductive SugaredLogger : Type := Sugar.

(** The struct [Store]: the database handle by its name, the Redis
    client and the logger, the last two possibly nil. *)
Record Store : Type := MkStore {
  db : string;
  rdb : option RedisClient;
  log : option SugaredLogger
}.

(** What the two servers answer while [New] runs. *)
Record StartEnv : Type := MkStartEnv {
  mongo_connect : option error;     (* mongo.Connect *)
  mongo_ping : option error;        (* client.Ping *)
  redis_ping : option error         (* rdb.Ping(ctx).Err() *)
}.

(** What a file holds when [ImportFromFile] reads it. *)
Inductive file : Type :=
| OpenFails (err : error)
| ReadFails (err : error)
| Contents (b : string).

(** The surroundings of one import run: the file system, and for the
    n-th upsert of the run (from 0) the reading of [time.Now()] taken
    for it and the error of its [UpdateOne], if any. *)
Record ImportEnv : Type := MkImportEnv {
  fs : string -> file;
  now_at : nat -> Time;
  update_err_at : nat -> option error
}.

(** The surroundings of one [GetMealByID]: the time on the Redis server
    and the errors of the three backend calls, if any. *)
Record GetEnv : Type := MkGetEnv {
  now : Time;
  get_err : option error;
  find_err : option error;
  set_err : option error
}.

(** [sugar.Errorw] / [sugar.Warnw] behind the [if sugar != nil] guard. *)
Definition logw (sugar : option SugaredLogger) (e : entry) (w : world) : world :=
  match sugar with
  | Some _ => write_log e w
  | None => w
  end.

(** [New].  The index creation that follows the construction, whose
    result the code discards, is not part of the model. *)
Definition New (env : StartEnv) (mongoURI dbName redisAddr : string)
    (sugar : option SugaredLogger) (w : world)
  : world * (option Store * option error) :=
  match mongo_connect env with
  | Some err =>
      (logw sugar (Entry ErrorLevel "mongo connect failed" [("error", FError err)]) w,
       (None, Some err))
  | None =>
      match mongo_ping env with
      | Some err =>
          (logw sugar (Entry ErrorLevel "mongo ping failed" [("error", FError err)]) w,
           (None, Some err))
      | None =>
          let '(rdb, w1) :=
            if String.eqb redisAddr "" then (None, w)
            else
              match redis_ping env with
              | Some err =>
                  (None,
                   logw sugar
                     (Entry WarnLevel
                        "redis ping failed; continuing without redis caching"
                        [("error", FError err)]) w)
              | None => (Some (NewClient redisAddr), w)
              end in
          (w1, (Some (MkStore dbName rdb sugar), None))
      end
  end.

Section WithLibraries.

(** [fmt.Sprint] of a value that is neither nil nor a string. *)
Variable Sprint : value -> string.

(** [json.Marshal] of a document; [None] is an error. *)
Variable json_Marshal : gmap string value -> option string.

(** [json.Unmarshal] into a [map[string]interface{}]: [None] is an
    error, [Some None] the map left nil by the JSON text null. *)
Variable json_Unmarshal : string -> option (option (gmap string value)).

(** [json.Unmarshal] into a [[]map[string]interface{}]. *)
Variable json_Unmarshal_records : string -> error + list (gmap string value).

Definition toString (v : value) : string * bool :=
  match v with
  | VNil => ("", false)
  | VString s => (s, true)
  | _ => (Sprint v, true)
  end.

Definition mustString (v : value) : string := fst (toString v).

(** [fmt.Sprintf("%d", i)]. *)
Definition itoa (i : nat) : string := NilZero.string_of_uint (Nat.to_uint i).

(** The loop [for i := 1; i <= 20; i++] that builds the ingredients;
    [left] counts the iterations still to run. *)
Fixpoint ingredients_loop (m : gmap string value) (left i : nat)
    (ingredients : list value) : list value :=
  match left with
  | 0 => ingredients
  | S left' =>
      let inKey := "strIngredient" +:+ itoa i in
      let msKey := "strMeasure" +:+ itoa i in
      let inVal := fst (toString (index m inKey)) in
      let msVal := fst (toString (index m msKey)) in
      ingredients_loop m left' (S i)
        (if String.eqb inVal "" then ingredients
         else ingredients ++
              [VMap (<["name" := VString inVal]>
                       (<["measure" := VString msVal]> ∅))])
  end.

Definition build_ingredients (m : gmap string value) : list value :=
  ingredients_loop m 20 1 [].

(** The document [doc] prepared for the record [m]. *)
Definition meal_doc (m : gmap string value) (id : string)
    (ingredients : list value) (t : Time) : gmap string value :=
  <["idMeal" := VString id]>
  (<["strMeal" := VString (mustString (index m "strMeal"))]>
  (<["strCategory" := VString (mustString (index m "strCategory"))]>
  (<["strArea" := VString (mustString (index m "strArea"))]>
  (<["strInstructions" := VString (mustString (index m "strInstructions"))]>
  (<["strMealThumb" := VString (mustString (index m "strMealThumb"))]>
  (<["strYoutube" := VString (mustString (index m "strYoutube"))]>
  (<["ingredients" := VArray ingredients]>
  (<["raw" := VMap m]>
  (<["updatedAt" := VTime t]> ∅))))))))).

(** [id, _ := m["idMeal"].(string)]. *)
Definition natural_key (m : gmap string value) : string :=
  match index m "idMeal" with
  | VString s => s
  | _ => ""
  end.

(** The loop [for _, m := range raw] of [ImportFromFile]; [n] is the
    number of upserts made so far in the run. *)
Fixpoint import_records (s : Store) (env : ImportEnv) (n : nat)
    (raw : list (gmap string value)) (w : world) : world * option error :=
  match raw with
  | [] => (w, None)
  | m :: raw' =>
      let id := natural_key m in
      if String.eqb id "" then import_records s env n raw' w
      else
        let doc := meal_doc m id (build_ingredients m) (now_at env n) in
        match UpdateOne (update_err_at env n) id doc w with
        | (w', Some err) =>
            (logw (log s)
               (Entry ErrorLevel "failed to upsert meal"
                  [("id", FString id); ("error", FError err)]) w',
             Some err)
        | (w', None) => import_records s env (S n) raw' w'
        end
  end.

Definition ImportFromFile (s : Store) (env : ImportEnv) (path : string)
    (w : world) : world * option error :=
  match fs env path with
  | OpenFails err => (w, Some (Wrapf "open file" err))
  | ReadFails err => (w, Some (Wrapf "read file" err))
  | Contents b =>
      match json_Unmarshal_records b with
      | inl err => (w, Some (Wrapf "unmarshal" err))
      | inr raw => import_records s env 0 raw w
      end
  end.

(** The first half of [GetMealByID]: the attempt on Redis.  [Some out]
    is the early return [return out, nil]. *)
Definition try_cache (s : Store) (env : GetEnv) (key : string) (w : world)
  : world * option (option (gmap string value)) :=
  match rdb s with
  | Some _ =>
      match redisGet (get_err env) (now env) key w with
      | (w1, inr b) => (w1, json_Unmarshal b)
      | (w1, inl _) => (w1, None)
      end
  | None => (w, None)
  end.

(** The last step of [GetMealByID]: the write to Redis, whose error
    is dropped. *)
Definition fill_cache (s : Store) (env : GetEnv) (key : string)
    (result : gmap string value) (w : world) : world :=
  match rdb s with
  | Some _ =>
      match json_Marshal result with
      | Some bb => fst (redisSet (set_err env) (now env) key bb (24 * Hour) w)
      | None => w
      end
  | None => w
  end.

(** [GetMealByID]: the pair [(map, error)] it returns, a nil map being
    [None]. *)
Definition GetMealByID (s : Store) (env : GetEnv) (id : string) (w : world)
  : world * (option (gmap string value) * option error) :=
  let key := "meal:" +:+ id in
  match try_cache s env key w with
  | (w1, Some out) => (w1, (out, None))
  | (w1, None) =>
      match FindOne (find_err env) id w1 with
      | (w2, inl err) =>
          if error_eqb err ErrNoDocuments then (w2, (None, None))
          else (w2, (None, Some err))
      | (w2, inr result) =>
          (fill_cache s env key result w2, (Some result, None))
      end
  end.

End WithLibraries.

End Store.

(** ** Notions used to state the properties *)

Module Properties.
Import GoStrings Values World Store.

(** [s] has the substring " or " up to the case of its two letters. *)
Definition has_or (s : string) : Prop :=
  exists a o r b,
    s = a +:+ String " " (String o (String r (String " " b))) /\
    (o = "o"%char \/ o = "O"%char) /\ (r = "r"%char \/ r = "R"%char).

Definition has_paren (s : string) : Prop :=
  exists a b, s = a +:+ ("(" +:+ b).

(** The record has a usable natural key. *)
Definition keyed (m : gmap string value) : bool :=
  negb (String.eqb (natural_key m) "").

(** The field idMeal is missing, is not a string, or is the empty string. *)
Definition unkeyed (m : gmap string value) : Prop :=
  m !! "idMeal" = None \/
  m !! "idMeal" = Some (VString "") \/
  exists v, m !! "idMeal" = Some v /\ forall s, v <> VString s.

(** Number of upserts a run makes for [raw] when none fails. *)
Definition upserts (raw : list (gmap string value)) : nat :=
  length (List.filter keyed raw).

(** The last record of [raw] whose natural key is [k]. *)
Fixpoint last_record (k : string) (raw : list (gmap string value))
  : option (gmap string value) :=
  match raw with
  | [] => None
  | m :: raw' =>
      match last_record k raw' with
      | Some m' => Some m'
      | None => if keyed m && String.eqb (natural_key m) k then Some m else None
      end
  end.

(** The number, counted from [n], of the upsert a run makes for the last
    record of [raw] whose natural key is [k]: the run makes its upserts in
    the order of the records, one for each record that has a key, and the
    first of them has the number [n]. *)
Fixpoint last_upsert (k : string) (raw : list (gmap string value)) (n : nat)
  : option nat :=
  match raw with
  | [] => None
  | m :: raw' =>
      if keyed m then
        match last_upsert k raw' (S n) with
        | Some j => Some j
        | None => if String.eqb (natural_key m) k then Some n else None
        end
      else last_upsert k raw' n
  end.

(** The ten fields of the document an import writes. *)
Definition doc_fields : list string :=
  ["idMeal"; "strMeal"; "strCategory"; "strArea"; "strInstructions";
   "strMealThumb"; "strYoutube"; "ingredients"; "raw"; "updatedAt"].

(** The six fields of that document copied as strings from the record. *)
Definition str_fields : list string :=
  ["strMeal"; "strCategory"; "strArea"; "strInstructions";
   "strMealThumb"; "strYoutube"].

(** The text of the error mentions the key. *)
Definition carries_key (e : error) (k : string) : bool := Contains (Error e) k.

Section Slots.
Variable Sprint : value -> string.

Definition name_slot (m : gmap string value) (i : nat) : string :=
  fst (toString Sprint (index m ("strIngredient" +:+ itoa i))).

Definition measure_slot (m : gmap string value) (i : nat) : string :=
  fst (toString Sprint (index m ("strMeasure" +:+ itoa i))).

Definition slot_pair (m : gmap string value) (i : nat) : value :=
  VMap (<["name" := VString (name_slot m i)]>
          (<["measure" := VString (measure_slot m i)]> ∅)).

(** The slots 1..20 whose name is not empty, in increasing order. *)
Definition kept_slots (m : gmap string value) : list nat :=
  filter (fun i => name_slot m i <> "") (seq 1 20).

End Slots.

(** Every entry of the cache under a key "meal:<id>" stands for a document
    the collection holds. *)
Definition cache_backed (w : world) : Prop :=
  forall id b expiry,
    cache w !! ("meal:" +:+ id) = Some (b, expiry) ->
    is_Some (find_id id (meals w)).

(** What the primary store alone answers to a lookup. *)
Definition primary_outcome (env : GetEnv) (id : string) (w : world)
  : option (gmap string value) * option error :=
  match find_err env with
  | Some err =>
      if error_eqb err ErrNoDocuments then (None, None) else (None, Some err)
  | None =>
      match find_id id (meals w) with
      | Some d => (Some d, None)
      | None => (None, None)
      end
  end.

(** *** Sample inputs *)

(** The sample records hold strings only, so [fmt.Sprint] is never
    called on them. *)
Definition no_Sprint (v : value) : string := "".

Definition meal_a : gmap string value :=
  <["idMeal" := VString "52772"]>
  (<["strMeal" := VString "Teriyaki Chicken Casserole"]>
  (<["strIngredient1" := VString "soy sauce"]>
  (<["strMeasure1" := VString "3/4 cup"]>
  (<["strIngredient2" := VString ""]>
  (<["strMeasure2" := VString "1 tbsp"]>
  (<["strIngredient3" := VString "water"]>
  (<["strMeasure3" := VString "1/2 cup"]> ∅))))))).

Definition meal_b : gmap string value :=
  <["idMeal" := VString "52773"]>
  (<["strMeal" := VString "Honey Teriyaki Salmon"]> ∅).

(** A record whose idMeal is a number, not a string. *)
Definition meal_numeric_id : gmap string value :=
  <["idMeal" := VFloat64 0x40E9C48000000000]>
  (<["strMeal" := VString "Numeric"]> ∅).

Definition store0 : Store := MkStore "meal_prep" None (Some Sugar).
Definition store_cached : Store :=
  MkStore "meal_prep" (Some (NewClient "redis:6379")) (Some Sugar).

Definition world0 : world := World (Collection [] 0) ∅ [] [].

(** A run in which every clock reading is [t] and no upsert fails. *)
Definition env_at (t : Time) : ImportEnv :=
  MkImportEnv (fun _ => Contents "") (fun _ => t) (fun _ => None).

(** A run whose clock reads [t] at the first upsert and one more at each
    later one; no upsert fails. *)
Definition env_ticking (t : Time) : ImportEnv :=
  MkImportEnv (fun _ => Contents "") (fun n => (t + Z.of_nat n)%Z) (fun _ => None).

(** A run whose second upsert fails. *)
Definition env_fail_second : ImportEnv :=
  MkImportEnv (fun _ => Contents "") (fun _ => 1000%Z)
    (fun n => if Nat.eqb n 1 then Some (Err "connection refused") else None).

(** A collection that already holds a document for 52772, with a field
    the import does not write. *)
Definition world_noted : world :=
  World
    (Collection [<["idMeal" := VString "52772"]>
                   (<["note" := VString "family favourite"]> ∅)] 0)
    ∅ [] [].

(** A stored document, a world that holds it, and a codec that is
    defined on this document only. *)
Definition doc_a : gmap string value :=
  <["_id" := VObjectID 0]>
  (<["idMeal" := VString "52772"]>
  (<["strMeal" := VString "Teriyaki Chicken Casserole"]> ∅)).

Definition world_a : world := World (Collection [doc_a] 1) ∅ [] [].

Definition sample_Marshal (d : gmap string value) : option string :=
  Some "{sample}".

Definition sample_Unmarshal (b : string) : option (option (gmap string value)) :=
  if String.eqb b "{sample}" then Some (Some doc_a) else None.

(** The kinds of value that [json.Unmarshal] stores in an interface
    value: nil, bool, float64, string, a slice and a map.  A [time.Time]
    or an ObjectID is none of them. *)
Definition json_kind (v : value) : bool :=
  match v with
  | VTime _ | VObjectID _ => false
  | _ => true
  end.

(** [encoding/json] at the document [doc_a], the object id 0 standing for
    the ObjectID of twelve zero bytes.  [json.Marshal] writes the keys of
    a map in sorted order and an ObjectID, through its MarshalJSON, as the
    string of its 24 hexadecimal digits; [json.Unmarshal] reads that
    string back as a string.  [json_a] is the text
    {_id:000000000000000000000000,idMeal:52772,strMeal:Teriyaki Chicken
    Casserole} with each key and each value between double quotes. *)
Definition dq : string := String (Ascii.ascii_of_nat 34) "".
Definition quoted (s : string) : string := dq +:+ s +:+ dq.

Definition json_a : string :=
  "{" +:+ quoted "_id" +:+ ":" +:+ quoted "000000000000000000000000" +:+ ","
      +:+ quoted "idMeal" +:+ ":" +:+ quoted "52772" +:+ ","
      +:+ quoted "strMeal" +:+ ":" +:+ quoted "Teriyaki Chicken Casserole"
      +:+ "}".

(** What [json.Unmarshal] makes of [json_a]. *)
Definition doc_a_decoded : gmap string value :=
  <["_id" := VString "000000000000000000000000"]>
  (<["idMeal" := VString "52772"]>
  (<["strMeal" := VString "Teriyaki Chicken Casserole"]> ∅)).

Definition Marshal_a (d : gmap string value) : option string := Some json_a.

Definition Unmarshal_a (b : string) : option (option (gmap string value)) :=
  if String.eqb b json_a then Some (Some doc_a_decoded) else None.

Definition get_env (t : Time) : GetEnv := MkGetEnv t None None None.

(** Redis is down at start-up, MongoDB is up. *)
Definition start_no_redis : StartEnv :=
  MkStartEnv None None (Some (Err "dial tcp: connection refused")).

End Properties.


(** ** Command [build_index]: cmd/build_index/main.go *)

Module BuildIndex.
Import Values Store.

Record IndexItem : Type := MkIndexItem {
  IDMeal : string;
  StrMeal : string;
  StrArea : string;
  StrCategory : string;
  StrMealThumb : string;
  Ingredients : list string
}.

(** What the command prints. *)
Inductive message : Type :=
| AlreadyExists (path : string)
| FailedRead (path : string) (err : error)
| FailedParse (err : error)
| FailedMarshal (err : error)
| FailedMkdir (err : error)
| FailedWrite (path : string) (err : error)
| Wrote (n : nat) (path : string).

(** The part of the file system the command works on: the contents of
    the regular files by path, and the paths that are directories.
    Whether the directory a path lies in is there is not tracked: an open
    that fails for that reason is a fault of the environment. *)
Record fsys : Type := Fsys {
  files : gmap string string;
  dirs : gset string
}.

(** How [os.WriteFile] fails: at the open, with nothing changed; or after
    the open, which has created or truncated the file, with only the first
    [written] bytes of the data in it (all of them when it is the close
    that fails). *)
Inductive write_fault : Type :=
| OpenFault (err : error)
| WriteFault (written : nat) (err : error).

(** The faults of the calls to the operating system, if any; without a
    fault a call still fails by itself on a path that is not there or is
    of the wrong kind. *)
Record IndexEnv : Type := MkIndexEnv {
  stat_err : option error;
  read_err : option error;
  mkdir_err : option error;
  write_err : option write_fault
}.

(** [os.Stat(path)], by its error: nil for a file or a directory that is
    there. *)
Definition os_Stat (env : IndexEnv) (path : string) (fs : fsys) : option error :=
  match stat_err env with
  | Some err => Some err
  | None =>
      match files fs !! path with
      | Some _ => None
      | None =>
          if bool_decide (path ∈ dirs fs) then None
          else Some (Err ("stat " +:+ path +:+ ": no such file or directory"))
      end
  end.

(** [os.ReadFile(path)]. *)
Definition os_ReadFile (env : IndexEnv) (path : string) (fs : fsys)
  : error + string :=
  match read_err env with
  | Some err => inl err
  | None =>
      match files fs !! path with
      | Some b => inr b
      | None =>
          if bool_decide (path ∈ dirs fs)
          then inl (Err ("read " +:+ path +:+ ": is a directory"))
          else inl (Err ("open " +:+ path +:+ ": no such file or directory"))
      end
  end.

(** [os.MkdirAll(path, 0755)] for a path of one component: nothing to do
    for a directory that is there, an error for a file of that name, and
    the new directory otherwise. *)
Definition os_MkdirAll (env : IndexEnv) (path : string) (fs : fsys)
  : fsys * option error :=
  match mkdir_err env with
  | Some err => (fs, Some err)
  | None =>
      if bool_decide (path ∈ dirs fs) then (fs, None)
      else
        match files fs !! path with
        | Some _ => (fs, Some (Err ("mkdir " +:+ path +:+ ": not a directory")))
        | None => (Fsys (files fs) ({[path]} ∪ dirs fs), None)
        end
  end.

(** [os.WriteFile(path, data, 0644)]: open with create and truncate,
    write, close. *)
Definition os_WriteFile (env : IndexEnv) (path data : string) (fs : fsys)
  : fsys * option error :=
  match write_err env with
  | Some (OpenFault err) => (fs, Some err)
  | Some (WriteFault written err) =>
      (Fsys (<[path := String.substring 0 written data]> (files fs)) (dirs fs),
       Some err)
  | None =>
      if bool_decide (path ∈ dirs fs)
      then (fs, Some (Err ("open " +:+ path +:+ ": is a directory")))
      else (Fsys (<[path := data]> (files fs)) (dirs fs), None)
  end.

Section WithLibraries.
Variable Sprint : value -> string.
Variable json_Unmarshal_records : string -> error + list (gmap string value).
Variable json_MarshalIndent : list IndexItem -> error + string.

Definition toStr (v : value) : string :=
  match v with
  | VNil => ""
  | VString t => t
  | _ => Sprint v
  end.

(** The loop [for i := 1; i <= 20; i++] that gathers the ingredient
    names; [left] counts the iterations still to run. *)
Fixpoint gather_loop (m : gmap string value) (left i : nat) (ing : list string)
  : list string :=
  match left with
  | 0 => ing
  | S left' =>
      let key := "strIngredient" +:+ itoa i in
      gather_loop m left' (S i)
        (match m !! key with
         | Some v =>
             let s := toStr v in
             if String.eqb s "" then ing else ing ++ [s]
         | None => ing
         end)
  end.

Definition index_item (m : gmap string value) : IndexItem :=
  MkIndexItem (toStr (index m "idMeal")) (toStr (index m "strMeal"))
    (toStr (index m "strArea")) (toStr (index m "strCategory"))
    (toStr (index m "strMealThumb")) (gather_loop m 20 1 []).

(** The loop [for _, m := range raw]. *)
Fixpoint items_loop (raw : list (gmap string value)) (out : list IndexItem)
  : list IndexItem :=
  match raw with
  | [] => out
  | m :: raw' => items_loop raw' (out ++ [index_item m])
  end.

(** [main]: the file system after the run, the exit status and the
    messages printed. *)
Definition main (env : IndexEnv) (inPath outPath : string) (force : bool)
    (fs : fsys) : fsys * nat * list message :=
  let exists_out :=
    match os_Stat env outPath fs with
    | None => true
    | Some _ => false
    end in
  if negb force && exists_out then (fs, 0, [AlreadyExists outPath])
  else
    match os_ReadFile env inPath fs with
    | inl err => (fs, 2, [FailedRead inPath err])
    | inr b =>
        match json_Unmarshal_records b with
        | inl err => (fs, 2, [FailedParse err])
        | inr raw =>
            let out := items_loop raw [] in
            match json_MarshalIndent out with
            | inl err => (fs, 2, [FailedMarshal err])
            | inr ob =>
                match os_MkdirAll env "public" fs with
                | (fs1, Some err) => (fs1, 2, [FailedMkdir err])
                | (fs1, None) =>
                    match os_WriteFile env outPath ob fs1 with
                    | (fs2, Some err) => (fs2, 2, [FailedWrite outPath err])
                    | (fs2, None) => (fs2, 0, [Wrote (length out) outPath])
                    end
                end
            end
        end
    end.

End WithLibraries.

End BuildIndex.

(** ** Command [main]: cmd/main.go, the meals file and the meals route *)

Module Server.
Import Values World Store.

(** The environment variables, and whether [os.Stat] succeeds on a path. *)
Record OSEnv : Type := MkOSEnv {
  Getenv : string -> string;
  Stat_ok : string -> bool
}.

Definition candidates : list string :=
  ["./all_meals.json"; "/root/all_meals.json"; "/root/public/all_meals.json";
   "/app/all_meals.json"].

(** The loop [for _, c := range candidates] with its final [return ""]. *)
Fixpoint first_candidate (os : OSEnv) (cs : list string) : string :=
  match cs with
  | [] => ""
  | c :: cs' => if Stat_ok os c then c else first_candidate os cs'
  end.

Definition resolveMealsFile (os : OSEnv) : string :=
  let p := Getenv os "MEALS_FILE" in
  if negb (String.eqb p "") && Stat_ok os p then p
  else first_candidate os candidates.

(** A JSON answer: [gin.H{"error": msg}] or the meal. *)
Inductive body : Type :=
| ErrorBody (msg : string)
| MealBody (m : gmap string value).

Section WithLibraries.
Variable json_Marshal : gmap string value -> option string.
Variable json_Unmarshal : string -> option (option (gmap string value)).

(** The handler of GET /v1/meals/:id; [store] is nil when the store is
    not configured or could not be built. *)
Definition mealsRoute (store : option Store) (env : GetEnv) (id : string)
    (w : world) : world * (nat * body) :=
  match store with
  | None => (w, (503, ErrorBody "meals store not configured"))
  | Some s =>
      match GetMealByID json_Marshal json_Unmarshal s env id w with
      | (w', (_, Some err)) => (w', (500, ErrorBody (Error err)))
      | (w', (None, None)) => (w', (404, ErrorBody "not found"))
      | (w', (Some m, None)) => (w', (200, MealBody m))
      end
  end.

End WithLibraries.

End Server.

(** ** Package [recipes]: [ImportMealHandler] *)

Module RecipesImport.
Import Values World Store Recipes.

Record ImportIngredient : Type := MkImportIngredient {
  Name : string;
  Measure : string
}.

Record ImportMealRequest : Type := MkImportMealRequest {
  Title : string;
  Description : option string;
  Servings : option Z;
  PrepTime : option Z;
  CookTime : option Z;
  Instructions : option string;
  YoutubeLink : option string;
  Ingredients : list ImportIngredient
}.

(** A row of [recipes], by the columns the handler writes and its id. *)
Record recipe_row : Type := MkRecipeRow {
  row_id : nat;
  title : string;
  description : option string;
  instructions : option string;
  youtube_link : option string;
  servings : option Z;
  prep_time : option Z;
  cook_time : option Z
}.

(** A row of [recipe_ingredients], by the columns the handler writes. *)
Record ingredient_row : Type := MkIngredientRow {
  recipe_id : nat;
  name : string;
  quantity : option string;
  unit : option string
}.

Record tables : Type := MkTables {
  recipes : list recipe_row;
  recipe_ingredients : list ingredient_row
}.

(** The database: what is committed, the tables as the open transaction
    sees them (if one is open), and the log. *)
Record sqldb : Type := MkSqldb {
  committed : tables;
  tx : option tables;
  hlogs : list entry
}.

(** What the request and the database answer during one call. *)
Record ImportMealEnv : Type := MkImportMealEnv {
  bind : error + ImportMealRequest;            (* c.ShouldBindJSON(&req) *)
  begin_err : option error;                    (* db.Begin *)
  insert_recipe_err : option error;            (* tx.Exec, recipes *)
  assigned_id : nat;                           (* the id given to the row *)
  last_insert_id_err : option error;           (* res.LastInsertId *)
  insert_ingredient_err : nat -> option error; (* tx.Exec, i-th ingredient *)
  commit_err : option error                    (* tx.Commit *)
}.

Inductive answer : Type :=
| ErrorJSON (msg : string)
| RecipeID (id : nat).

Definition Begin (st : sqldb) : sqldb :=
  MkSqldb (committed st) (Some (committed st)) (hlogs st).

(** [tx.Rollback()]; on a transaction that is over it changes nothing. *)
Definition Rollback (st : sqldb) : sqldb :=
  MkSqldb (committed st) None (hlogs st).

(** [tx.Commit()]: whether it fails or not, the transaction is over. *)
Definition Commit (fault : option error) (st : sqldb) : sqldb :=
  match fault, tx st with
  | None, Some t => MkSqldb t None (hlogs st)
  | _, _ => MkSqldb (committed st) None (hlogs st)
  end.

(** [tx.Exec] of an INSERT: a change of the tables the transaction sees. *)
Definition in_tx (f : tables -> tables) (st : sqldb) : sqldb :=
  MkSqldb (committed st) (option_map f (tx st)) (hlogs st).

Definition add_recipe (r : recipe_row) (t : tables) : tables :=
  MkTables (recipes t ++ [r]) (recipe_ingredients t).

Definition add_ingredient (r : ingredient_row) (t : tables) : tables :=
  MkTables (recipes t) (recipe_ingredients t ++ [r]).

Definition hlog (sugar : option SugaredLogger) (e : entry) (st : sqldb) : sqldb :=
  match sugar with
  | Some _ => MkSqldb (committed st) (tx st) (hlogs st ++ [e])
  | None => st
  end.

(** The loop [for _, ing := range req.Ingredients]; [i] counts the
    ingredients done.  [inl] is the early return after a failed insert. *)
Fixpoint insert_ingredients (sugar : option SugaredLogger) (env : ImportMealEnv)
    (recipeID i : nat) (ings : list ImportIngredient) (st : sqldb)
  : sqldb + sqldb :=
  match ings with
  | [] => inr st
  | ing :: ings' =>
      let '(q, u) := parseMeasure (Measure ing) in
      match insert_ingredient_err env i with
      | Some err =>
          inl (Rollback
                 (hlog sugar
                    (Entry ErrorLevel "failed to insert ingredient (import)"
                       [("error", FError err); ("name", FString (Name ing))])
                    st))
      | None =>
          insert_ingredients sugar env recipeID (S i) ings'
            (in_tx (add_ingredient (MkIngredientRow recipeID (Name ing) q u)) st)
      end
  end.

(** The handler after [db.Begin]: the state, whether the variable [err]
    of the function is non-nil at the return, and the answer. *)
Definition import_in_tx (sugar : option SugaredLogger) (env : ImportMealEnv)
    (req : ImportMealRequest) (st : sqldb) : sqldb * bool * (nat * answer) :=
  match insert_recipe_err env with
  | Some err =>
      (Rollback
         (hlog sugar
            (Entry ErrorLevel "failed to insert recipe (import)"
               [("error", FError err)]) st),
       true, (500, ErrorJSON "failed to insert recipe"))
  | None =>
      let st1 :=
        in_tx (add_recipe
                 (MkRecipeRow (assigned_id env) (Title req) (Description req)
                    (Instructions req) (YoutubeLink req) (Servings req)
                    (PrepTime req) (CookTime req))) st in
      match last_insert_id_err env with
      | Some err =>
          (Rollback
             (hlog sugar
                (Entry ErrorLevel "failed to lastinsertid (import)"
                   [("error", FError err)]) st1),
           true, (500, ErrorJSON "failed to get id"))
      | None =>
          let recipeID := assigned_id env in
          match insert_ingredients sugar env recipeID 0 (Ingredients req) st1 with
          | inl st2 => (st2, false, (500, ErrorJSON "failed to insert ingredient"))
          | inr st2 =>
              match commit_err env with
              | Some err =>
                  (hlog sugar
                     (Entry ErrorLevel "failed to commit import tx"
                        [("error", FError err)])
                     (Commit (Some err) st2),
                   false, (500, ErrorJSON "failed to commit"))
              | None => (Commit None st2, false, (201, RecipeID recipeID))
              end
          end
      end
  end.

(** [ImportMealHandler], with the deferred roll-back run at the return. *)
Definition ImportMealHandler (sugar : option SugaredLogger) (env : ImportMealEnv)
    (st : sqldb) : sqldb * (nat * answer) :=
  match bind env with
  | inl _ => (st, (400, ErrorJSON "invalid body"))
  | inr req =>
      match begin_err env with
      | Some _ => (st, (500, ErrorJSON "failed to begin tx"))
      | None =>
          let '(st', err_set, resp) := import_in_tx sugar env req (Begin st) in
          (if err_set then Rollback st' else st', resp)
      end
  end.

End RecipesImport.

(** ** Notions and samples for the handlers and the tools *)

Module HandlerNotions.
Import Values World Store Recipes RecipesImport Server.

(** The row of [recipe_ingredients] for an ingredient of the request. *)
Definition ingredient_of (recipeID : nat) (ing : ImportIngredient)
  : ingredient_row :=
  MkIngredientRow recipeID (Name ing)
    (fst (parseMeasure (Measure ing))) (snd (parseMeasure (Measure ing))).

(** The row of [recipes] for the request. *)
Definition recipe_of (env : ImportMealEnv) (req : ImportMealRequest) : recipe_row :=
  MkRecipeRow (assigned_id env) (Title req) (Description req)
    (Instructions req) (YoutubeLink req) (Servings req)
    (PrepTime req) (CookTime req).

(** Every step of the handler succeeds. *)
Definition all_succeed (env : ImportMealEnv) (req : ImportMealRequest) : Prop :=
  bind env = inr req /\ begin_err env = None /\ insert_recipe_err env = None /\
  last_insert_id_err env = None /\
  (forall i, i < length (Ingredients req) -> insert_ingredient_err env i = None) /\
  commit_err env = None.

Definition sample_request : ImportMealRequest :=
  MkImportMealRequest "Pancakes" None (Some 4%Z) None None None None
    [MkImportIngredient "flour" "1 1/2 cups";
     MkImportIngredient "milk" "1/2 cup";
     MkImportIngredient "salt" "pinch"].

Definition empty_db : sqldb := MkSqldb (MkTables [] []) None [].

(** Every step succeeds and the new row gets the id 7. *)
Definition env_ok : ImportMealEnv :=
  MkImportMealEnv (inr sample_request) None None 7 None (fun _ => None) None.

(** The insert of the second ingredient fails. *)
Definition env_second_ingredient_fails : ImportMealEnv :=
  MkImportMealEnv (inr sample_request) None None 7 None
    (fun i => if Nat.eqb i 1 then Some (Err "database is locked") else None)
    None.

(** MEALS_FILE is not set; only /root/public/all_meals.json is there. *)
Definition os_public_only : OSEnv :=
  MkOSEnv (fun _ => "") (fun path => String.eqb path "/root/public/all_meals.json").

(** The world after a first lookup of 52772 has filled the cache. *)
Definition world_cached : world :=
  fst (GetMealByID Properties.sample_Marshal Properties.sample_Unmarshal
         Properties.store_cached (Properties.get_env 0%Z) "52772"
         Properties.world_a).

(** A decoder and an encoder for the index builder that know one input. *)
Definition sample_records (b : string) : error + list (gmap string value) :=
  if String.eqb b "[meals]" then inr [Properties.meal_a; Properties.meal_b]
  else inl (Err "invalid character").

Definition sample_indent (items : list BuildIndex.IndexItem) : error + string :=
  inr "[index]".

Definition files_with_index : gmap string string :=
  <["all_meals.json" := "[meals]"]>
    (<["public/meals_index.json" := "[old index]"]> ∅).

Definition fs_with_index : BuildIndex.fsys :=
  BuildIndex.Fsys files_with_index {["public"]}.

Definition index_env_ok : BuildIndex.IndexEnv :=
  BuildIndex.MkIndexEnv None None None None.

(** The write fails after the open, with three bytes written. *)
Definition index_env_disk_full : BuildIndex.IndexEnv :=
  BuildIndex.MkIndexEnv None None None
    (Some (BuildIndex.WriteFault 3 (Err "write public/meals_index.json: no space left on device"))).

End HandlerNotions.

(** ** Notions used to state further properties of the matcher *)

Module MatcherNotions.
Import Regexp.

(** Every byte of [s] is in the class [p]. *)
Fixpoint all_bytes (p : ascii -> bool) (s : string) : bool :=
  match s with
  | EmptyString => true
  | String c s' => p c && all_bytes p s'
  end.

(** [s] is empty or starts with a byte outside [p]. *)
Definition head_not (p : ascii -> bool) (s : string) : Prop :=
  match s with
  | EmptyString => True
  | String c _ => p c = false
  end.

(** The states a greedy iteration over the bytes of [a] goes through when
    [b] follows: all of [a] read first, nothing read last. *)
Fixpoint states_desc (a b : string) (pos : nat) (caps : list (nat * (nat * nat)))
  : list mstate :=
  match a with
  | EmptyString => [MState pos b caps]
  | String c a' =>
      states_desc a' b (S pos) caps ++ [MState pos (String c a' +:+ b) caps]
  end.

(** An ASCII byte that is not white space. *)
Definition plain_byte (c : ascii) : bool :=
  (N_of_ascii c <? 128)%N && negb (GoStrings.asciiSpace c).

(** [s] is empty or starts with a plain byte. *)
Definition head_plain (s : string) : Prop :=
  match s with
  | EmptyString => True
  | String c _ => plain_byte c = true
  end.

(** The first byte of a pattern is not ASCII. *)
Definition high_head (p : string) : bool :=
  match p with
  | EmptyString => false
  | String c _ => (128 <=? N_of_ascii c)%N
  end.

End MatcherNotions.

(** ** Facts about the string functions *)

Module StringFacts.
Import GoStrings.

Lemma prefix_app (p b : string) : String.prefix p (p +:+ b) = true.
Proof.
  induction p as [|c p IH]; simpl.
  - by destruct b.
  - destruct (Ascii.ascii_dec c c) as [_|Hne]; [exact IH | by destruct Hne].
Qed.

Lemma prefix_inv (p s : string) :
  String.prefix p s = true -> exists b, s = p +:+ b.
Proof.
  revert s; induction p as [|c p IH]; intros s H.
  - by exists s.
  - destruct s as [|d s]; simpl in H; [discriminate|].
    destruct (Ascii.ascii_dec c d) as [->|_]; [|discriminate].
    destruct (IH _ H) as [b ->]. by exists b.
Qed.

(** [Contains] finds exactly the substrings. *)
Lemma Contains_prefix (s sub : string) :
  String.prefix sub s = true -> Contains s sub = true.
Proof. intros H. destruct s; cbn [Contains]; unfold HasPrefix; by rewrite H. Qed.

Lemma Contains_app (a sub b : string) : Contains (a +:+ (sub +:+ b)) sub = true.
Proof.
  induction a as [|c a IH].
  - change ("" +:+ (sub +:+ b)) with (sub +:+ b).
    apply Contains_prefix, prefix_app.
  - change (String c a +:+ (sub +:+ b)) with (String c (a +:+ (sub +:+ b))).
    cbn [Contains]. rewrite IH. apply orb_true_r.
Qed.

Lemma Contains_inv (s sub : string) :
  Contains s sub = true -> exists a b, s = a +:+ (sub +:+ b).
Proof.
  induction s as [|c s IH]; cbn [Contains]; unfold HasPrefix; intros H.
  - rewrite orb_false_r in H. apply prefix_inv in H as [b ->]. by exists "", b.
  - apply orb_true_iff in H as [H|H].
    + apply prefix_inv in H as [b ->]. by exists "", b.
    + destruct (IH H) as (a & b & ->). by exists (String c a), b.
Qed.

Lemma ToLower_app (a b : string) :
  ToLower (a +:+ b) = ToLower a +:+ ToLower b.
Proof. induction a as [|c a IH]; simpl; [done | by rewrite IH]. Qed.

Lemma app_nonempty (a sub b : string) :
  sub <> "" -> String.eqb (a +:+ (sub +:+ b)) "" = false.
Proof.
  intros Hsub. destruct a; simpl; [|done].
  destruct sub; [done|]. done.
Qed.

Lemma append_inv_head (p a b : string) : p +:+ a = p +:+ b -> a = b.
Proof.
  induction p as [|c p IH]; [done|].
  change (String c p +:+ ?x) with (String c (p +:+ x)).
  intros [= H]. by apply IH.
Qed.

End StringFacts.

(** ** Facts about the matcher *)

Module RegexpFacts.
Import Regexp.

(** A pattern anchored by [^] matches at offset 0 or nowhere. *)
Lemma find_from_anchored (r : regex) (fuel start : nat) (s : string) :
  0 < start -> find_from (Seq Bol r) fuel start s = None.
Proof.
  revert start s; induction fuel as [|fuel IH]; intros start s Hpos.
  - simpl. destruct (Nat.eqb_spec start 0); [lia|]. by destruct s.
  - simpl. destruct (Nat.eqb_spec start 0); [lia|]. simpl.
    destruct s; [done|]. apply IH. lia.
Qed.

(** [[0-9]+] needs a digit at the head of what is left. *)
Lemma run_digits_nil (st : mstate) :
  match rest st with
  | String c _ => is_digit c = false
  | EmptyString => True
  end ->
  run digits st = [].
Proof.
  unfold digits; simpl. destruct (rest st) as [|c s']; [done|].
  by intros ->.
Qed.

Lemma run_Seq (r1 r2 : regex) (st : mstate) :
  run (Seq r1 r2) st = flat_map (run r2) (run r1 st).
Proof. reflexivity. Qed.

Lemma run_Alt (r1 r2 : regex) (st : mstate) :
  run (Alt r1 r2) st = run r1 st ++ run r2 st.
Proof. reflexivity. Qed.

Lemma run_Group (i : nat) (r : regex) (st : mstate) :
  run (Group i r) st = map (close i (pos st)) (run r st).
Proof. reflexivity. Qed.

(** The three alternatives all start with [[0-9]+]. *)
Lemma run_measure_re_nil (s : string) :
  match s with String c _ => is_digit c = false | EmptyString => True end ->
  run measure_re (MState 0 s []) = [].
Proof.
  intros H. unfold measure_re.
  assert (Hd : run digits (MState 0 s []) = []) by by apply run_digits_nil.
  rewrite run_Seq. change (run Bol (MState 0 s [])) with [MState 0 s []].
  cbn [flat_map]. rewrite app_nil_r, run_Seq, run_Group, !run_Alt.
  unfold alt_mixed, alt_fraction, alt_decimal, fraction.
  by rewrite !run_Seq, Hd.
Qed.

Lemma FindStringSubmatch_no_digit (s : string) :
  match s with String c _ => is_digit c = false | EmptyString => True end ->
  FindStringSubmatch measure_re 2 s = [].
Proof.
  intros H. unfold FindStringSubmatch.
  assert (Hf : find_from measure_re (String.length s) 0 s = None).
  { destruct s as [|c s'].
    - reflexivity.
    - cbn [String.length find_from]. rewrite run_measure_re_nil by done.
      apply find_from_anchored. lia. }
  by rewrite Hf.
Qed.

End RegexpFacts.

(** ** The measure parser: claims C1, C7, C8 *)

Module ParseMeasure.
Import GoStrings Regexp Recipes Properties StringFacts RegexpFacts.

Lemma has_or_Contains (s : string) :
  has_or s -> Contains (ToLower s) " or " = true.
Proof.
  intros (a & o & r & b & -> & Ho & Hr).
  rewrite ToLower_app. simpl.
  replace (lower_byte o) with "o"%char by by destruct Ho as [->| ->].
  replace (lower_byte r) with "r"%char by by destruct Hr as [->| ->].
  apply (Contains_app (ToLower a) " or " (ToLower b)).
Qed.

(** C1.  The pattern's first alternative, tried first, already matches
    the digits before a "/" or a "."; the rest of the fraction or of the
    decimal lands in the unit.  The mixed number and the integer of the
    specification's other examples are split as intended. *)
Theorem parseMeasure_fraction_decimal_split :
  parseMeasure "1/2 tsp" = (Some "1", Some "/2 tsp") /\
  parseMeasure "1.5 cups" = (Some "1", Some ".5 cups") /\
  parseMeasure "1.5cups" = (Some "1", Some ".5cups") /\
  parseMeasure "1 1/2 cups" = (Some "1 1/2", Some "cups") /\
  parseMeasure "2 cups" = (Some "2", Some "cups").
Proof. repeat split; vm_compute; reflexivity. Qed.

(** C7.  When the trimmed input contains "(" or, in any letter case,
    " or ", the whole trimmed input is the quantity and there is no
    unit; the pattern is not consulted. *)
Theorem parseMeasure_compound (m : string) :
  has_paren (TrimSpace m) \/ has_or (TrimSpace m) ->
  parseMeasure m = (Some (TrimSpace m), None).
Proof.
  intros H. unfold parseMeasure.
  assert (Hne : String.eqb (TrimSpace m) "" = false).
  { destruct H as [(a & b & ->) | (a & o & r & b & -> & _)].
    - by apply app_nonempty.
    - by destruct a. }
  rewrite Hne.
  assert (Hc : Contains (TrimSpace m) "(" || Contains (ToLower (TrimSpace m)) " or " = true).
  { destruct H as [(a & b & ->) | H].
    - by rewrite Contains_app.
    - rewrite (has_or_Contains _ H). apply orb_true_r. }
  by rewrite Hc.
Qed.

Lemma parseMeasure_compound_witness :
  parseMeasure "Salt to taste (or to preference)"
    = (Some "Salt to taste (or to preference)", None) /\
  parseMeasure "2 cups or more" = (Some "2 cups or more", None) /\
  parseMeasure "  1 Tbsp OR 3 tsp " = (Some "1 Tbsp OR 3 tsp", None).
Proof.
  split; [|split].
  - apply (parseMeasure_compound "Salt to taste (or to preference)").
    left. by exists "Salt to taste ", "or to preference)".
  - apply (parseMeasure_compound "2 cups or more").
    right. exists "2 cups", "o"%char, "r"%char, "more". auto.
  - apply (parseMeasure_compound "  1 Tbsp OR 3 tsp ").
    right. exists "1 Tbsp", "O"%char, "R"%char, "3 tsp". auto.
Defined.

(** C8.  [parseMeasure] is total; an input that is empty once trimmed
    gives no quantity and no unit; an input for which the pattern finds
    no match, as is the case when it does not start with a digit, gives
    the whole trimmed input as quantity and no unit. *)
Theorem parseMeasure_total (m : string) :
  (exists q u, parseMeasure m = (q, u)) /\
  (TrimSpace m = "" -> parseMeasure m = (None, None)) /\
  (TrimSpace m <> "" ->
   FindStringSubmatch measure_re 2 (TrimSpace m) = [] ->
   parseMeasure m = (Some (TrimSpace m), None)) /\
  (forall c s', TrimSpace m = String c s' -> is_digit c = false ->
   parseMeasure m = (Some (TrimSpace m), None)).
Proof.
  assert (Hnomatch : TrimSpace m <> "" ->
            FindStringSubmatch measure_re 2 (TrimSpace m) = [] ->
            parseMeasure m = (Some (TrimSpace m), None)).
  { intros Hne Hnil. unfold parseMeasure.
    destruct (String.eqb_spec (TrimSpace m) ""); [done|].
    rewrite Hnil. simpl. by destruct (_ || _). }
  split; [|split; [|split]].
  - destruct (parseMeasure m) as [q u]. by exists q, u.
  - intros H. unfold parseMeasure. by rewrite H.
  - exact Hnomatch.
  - intros c s' Hs Hc. apply Hnomatch.
    + by rewrite Hs.
    + apply FindStringSubmatch_no_digit. by rewrite Hs.
Qed.

Lemma parseMeasure_total_witness :
  parseMeasure "   " = (None, None) /\
  parseMeasure "pinch" = (Some "pinch", None) /\
  parseMeasure " to taste " = (Some "to taste", None).
Proof.
  split; [|split].
  - apply (parseMeasure_total "   "). reflexivity.
  - apply (parseMeasure_total "pinch"); [discriminate | reflexivity].
  - apply (proj2 (proj2 (proj2 (parseMeasure_total " to taste "))) "t"%char "o taste");
      reflexivity.
Defined.

End ParseMeasure.


(** ** Facts about the collection *)

Module CollectionFacts.
Import Values World.

Lemma has_id_eq (id id' : string) (d : gmap string value) :
  d !! "idMeal" = Some (VString id) -> has_id id' d = String.eqb id id'.
Proof. unfold has_id. by intros ->. Qed.

Lemma has_id_set (id id' : string) (upd d : gmap string value) :
  upd !! "idMeal" = Some (VString id) ->
  has_id id' (upd ∪ d) = String.eqb id id'.
Proof. intros H. apply has_id_eq. by apply lookup_union_Some_l. Qed.

Lemma has_id_inj (id id' : string) (d : gmap string value) :
  has_id id d = true -> has_id id' d = true -> id = id'.
Proof.
  unfold has_id. destruct (d !! "idMeal") as [[]|]; try done.
  intros H1%String.eqb_eq H2%String.eqb_eq. congruence.
Qed.

Lemma find_snoc_miss {A} (p : A -> bool) (l : list A) (x : A) :
  List.find p l = None -> List.find p (l ++ [x]) = List.find p [x].
Proof.
  induction l as [|a l IH]; [done|]. simpl.
  destruct (p a); [done | exact IH].
Qed.

Lemma find_snoc_other {A} (p : A -> bool) (l : list A) (x : A) :
  p x = false -> List.find p (l ++ [x]) = List.find p l.
Proof.
  intros Hx. induction l as [|a l IH]; simpl.
  - by rewrite Hx.
  - destruct (p a); [done | exact IH].
Qed.

(** [set_first] succeeds exactly when the filter matches; it rewrites the
    first match and no other document. *)
Lemma set_first_spec (id : string) (upd : gmap string value)
    (ds : list (gmap string value)) :
  upd !! "idMeal" = Some (VString id) ->
  match List.find (has_id id) ds with
  | Some old =>
      exists ds', set_first id upd ds = Some ds' /\
        List.find (has_id id) ds' = Some (upd ∪ old) /\
        forall id', id' <> id ->
          List.find (has_id id') ds' = List.find (has_id id') ds
  | None => set_first id upd ds = None
  end.
Proof.
  intros Hupd. induction ds as [|d ds IH]; [done|]. simpl.
  destruct (has_id id d) eqn:Hd.
  - eexists; split; [done|]. split.
    + simpl. by rewrite (has_id_set id id), String.eqb_refl.
    + intros id' Hne. simpl. rewrite (has_id_set id id') by done.
      destruct (String.eqb_spec id id') as [->|_]; [done|].
      destruct (has_id id' d) eqn:Hd'; [|done].
      destruct Hne. symmetry. by apply (has_id_inj _ _ d).
  - destruct (List.find (has_id id) ds) as [old|].
    + destruct IH as (ds' & -> & Hf & Ho). eexists; split; [done|]. split.
      * simpl. by rewrite Hd.
      * intros id' Hne. simpl. by rewrite Ho.
    + by rewrite IH.
Qed.

Section Upsert.
Variables (id : string) (upd : gmap string value) (c : collection).
Hypothesis upd_id : upd !! "idMeal" = Some (VString id).

Lemma find_upsert_old (old : gmap string value) :
  find_id id c = Some old -> find_id id (upsert id upd c) = Some (upd ∪ old).
Proof.
  unfold find_id, upsert. intros H.
  pose proof (set_first_spec id upd (docs c) upd_id) as Hs.
  rewrite H in Hs. destruct Hs as (ds' & -> & Hf & _). exact Hf.
Qed.

Lemma find_upsert_new :
  find_id id c = None ->
  find_id id (upsert id upd c)
  = Some (<["_id" := VObjectID (next_oid c)]> (upd ∪ {["idMeal" := VString id]})).
Proof.
  unfold find_id, upsert. intros H.
  pose proof (set_first_spec id upd (docs c) upd_id) as Hs.
  rewrite H in Hs. rewrite Hs. simpl.
  rewrite find_snoc_miss by done. simpl.
  rewrite (has_id_eq id id), String.eqb_refl; [done|].
  rewrite lookup_insert_ne by done. by apply lookup_union_Some_l.
Qed.

Lemma find_upsert_other (id' : string) :
  id' <> id -> find_id id' (upsert id upd c) = find_id id' c.
Proof.
  unfold find_id, upsert. intros Hne.
  pose proof (set_first_spec id upd (docs c) upd_id) as Hs.
  destruct (List.find (has_id id) (docs c)) as [old|].
  - destruct Hs as (ds' & -> & _ & Ho). by apply Ho.
  - rewrite Hs. simpl. apply find_snoc_other.
    rewrite (has_id_eq id id').
    + by apply String.eqb_neq.
    + rewrite lookup_insert_ne by done. by apply lookup_union_Some_l.
Qed.

(** An upsert never removes a key from the collection. *)
Lemma find_upsert_is_Some (id' : string) :
  is_Some (find_id id' c) -> is_Some (find_id id' (upsert id upd c)).
Proof.
  intros [old H]. destruct (String.eqb_spec id' id) as [->|Hne].
  - rewrite (find_upsert_old old) by done. eauto.
  - rewrite find_upsert_other by done. eauto.
Qed.

End Upsert.

End CollectionFacts.

(** ** The import loop: claims C9, C10, C3 *)

Module ImportFacts.
Import GoStrings Values World Store Properties CollectionFacts.

Section ImportLoop.
Variable Sprint : value -> string.

Lemma ingredients_loop_spec (m : gmap string value) (left i : nat)
    (acc : list value) :
  ingredients_loop Sprint m left i acc
  = acc ++ map (slot_pair Sprint m)
             (filter (fun i => name_slot Sprint m i <> "") (seq i left)).
Proof.
  revert i acc; induction left as [|left IH]; intros i acc.
  - simpl. by rewrite app_nil_r.
  - cbn [ingredients_loop seq]. rewrite IH, filter_cons.
    fold (name_slot Sprint m i). fold (measure_slot Sprint m i).
    destruct (String.eqb_spec (name_slot Sprint m i) "") as [He|Hne].
    + rewrite decide_False by (intros H; by apply H).
      reflexivity.
    + rewrite decide_True by done.
      rewrite <- app_assoc. reflexivity.
Qed.

Lemma filter_seq_sorted (P : nat -> Prop) `{forall i, Decision (P i)} (a n : nat) :
  StronglySorted lt (filter P (seq a n)).
Proof.
  revert a; induction n as [|n IH]; intros a; simpl; [constructor|].
  rewrite filter_cons. destruct (decide (P a)); [|apply IH].
  constructor; [apply IH|].
  apply Forall_forall. intros x [_ Hx%list_elem_of_In%in_seq]%list_elem_of_filter. lia.
Qed.

(** C9.  The ingredients of the document are the pairs of the slots 1 to
    20 whose name is not empty, in increasing slot order; a slot whose
    name is empty is left out whatever its measure. *)
Theorem ingredients_from_slots (m : gmap string value) (id : string) (t : Time) :
  build_ingredients Sprint m = map (slot_pair Sprint m) (kept_slots Sprint m) /\
  meal_doc Sprint m id (build_ingredients Sprint m) t !! "ingredients"
  = Some (VArray (map (slot_pair Sprint m) (kept_slots Sprint m))) /\
  (forall i, i ∈ kept_slots Sprint m <->
             (1 <= i <= 20 /\ name_slot Sprint m i <> "")) /\
  StronglySorted lt (kept_slots Sprint m).
Proof.
  assert (Hb : build_ingredients Sprint m
               = map (slot_pair Sprint m) (kept_slots Sprint m)).
  { unfold build_ingredients. by rewrite ingredients_loop_spec. }
  split; [exact Hb|]. split; [|split].
  - rewrite Hb. clear Hb. unfold meal_doc.
    do 7 (rewrite lookup_insert_ne by done). apply lookup_insert_eq.
  - intros i. unfold kept_slots. rewrite list_elem_of_filter, list_elem_of_In, in_seq.
    clear Hb. split; intros [H1 H2]; (split; [lia | exact H1]) || (split; [exact H2 | lia]).
  - apply filter_seq_sorted.
Qed.

Lemma natural_key_unkeyed (m : gmap string value) :
  unkeyed m -> natural_key m = "".
Proof.
  unfold natural_key, index.
  intros [-> | [-> | (v & -> & Hv)]]; try done.
  destruct v; try done. by destruct (Hv s).
Qed.

(** C10.  A record without a usable idMeal leaves no trace of its own:
    the run goes as if the record were not in the input, in the store, in
    the calls made, in the log and in the error returned. *)
Theorem import_skips_unkeyed (s : Store) (env : ImportEnv) (n : nat)
    (pre post : list (gmap string value)) (m : gmap string value) (w : world) :
  unkeyed m ->
  import_records Sprint s env n (pre ++ m :: post) w
  = import_records Sprint s env n (pre ++ post) w.
Proof.
  intros Hm%natural_key_unkeyed.
  revert n w; induction pre as [|r pre IH]; intros n w.
  - simpl. by rewrite Hm.
  - simpl. destruct (String.eqb (natural_key r) ""); [apply IH|].
    destruct (UpdateOne _ _ _ _) as [w' [err|]]; [done | apply IH].
Qed.

(** A run over [a ++ b] is a run over [a] followed, if it returned no
    error, by a run over [b]. *)
Lemma import_records_app (s : Store) (env : ImportEnv) (n : nat)
    (a b : list (gmap string value)) (w : world) :
  import_records Sprint s env n (a ++ b) w
  = match import_records Sprint s env n a w with
    | (w1, None) => import_records Sprint s env (n + upserts a) b w1
    | (w1, Some err) => (w1, Some err)
    end.
Proof.
  revert n w; induction a as [|r a IH]; intros n w.
  - simpl. by rewrite Nat.add_0_r.
  - unfold upserts, keyed. simpl.
    destruct (String.eqb (natural_key r) ""); simpl; [apply IH|].
    destruct (UpdateOne _ _ _ _) as [w' [err|]]; [done|].
    rewrite IH. unfold upserts, keyed. by rewrite Nat.add_succ_r.
Qed.

(** C3, as the code has it.  The first upsert that fails ends the run:
    the error returned is the one [UpdateOne] gave, as it is; the key of
    the record goes to the log entry, when the store has a logger; the
    collection is the one the earlier upserts of the run left. *)
Theorem import_stops_at_first_failure (s : Store) (env : ImportEnv)
    (pre post : list (gmap string value)) (m : gmap string value)
    (w w1 : world) (err : error) :
  import_records Sprint s env 0 pre w = (w1, None) ->
  natural_key m <> "" ->
  update_err_at env (upserts pre) = Some err ->
  let w2 := fst (import_records Sprint s env 0 (pre ++ m :: post) w) in
  import_records Sprint s env 0 (pre ++ m :: post) w
  = (logw (log s)
       (Entry ErrorLevel "failed to upsert meal"
          [("id", FString (natural_key m)); ("error", FError err)])
       (record_call (MongoUpdateOne (natural_key m)) w1),
     Some err) /\
  meals w2 = meals w1 /\
  (log s <> None ->
   logs w2 = logs w1 ++ [Entry ErrorLevel "failed to upsert meal"
                           [("id", FString (natural_key m)); ("error", FError err)]]).
Proof.
  intros Hpre Hkey Herr.
  assert (Hrun : import_records Sprint s env 0 (pre ++ m :: post) w
    = (logw (log s)
         (Entry ErrorLevel "failed to upsert meal"
            [("id", FString (natural_key m)); ("error", FError err)])
         (record_call (MongoUpdateOne (natural_key m)) w1),
       Some err)).
  { rewrite import_records_app, Hpre. simpl.
    destruct (String.eqb_spec (natural_key m) ""); [done|].
    unfold UpdateOne. by rewrite Herr. }
  simpl. rewrite Hrun. split; [done|]. simpl.
  destruct (log s); simpl; [|done]. split; [done|]. by intros _.
Qed.

End ImportLoop.

End ImportFacts.

(** ** Importing twice: claim C2 *)

Module Idempotence.
Import GoStrings Values World Store Properties CollectionFacts ImportFacts.

Section Docs.
Variable Sprint : value -> string.

Lemma meal_doc_fields (m : gmap string value) (id : string)
    (ings : list value) (t : Time) (f : string) :
  is_Some (meal_doc Sprint m id ings t !! f) <-> f ∈ doc_fields.
Proof.
  unfold meal_doc, doc_fields.
  rewrite !lookup_insert_is_Some', !elem_of_cons, elem_of_nil.
  pose proof (lookup_empty_is_Some (M := gmap string) (A := value) f) as He.
  split; intros H; repeat (destruct H as [H|H]; [subst; tauto|]); tauto.
Qed.

Lemma meal_doc_id (m : gmap string value) (id : string)
    (ings : list value) (t : Time) :
  meal_doc Sprint m id ings t !! "idMeal" = Some (VString id).
Proof. unfold meal_doc. by simplify_map_eq. Qed.

Lemma meal_doc_updatedAt (m : gmap string value) (id : string)
    (ings : list value) (t : Time) :
  meal_doc Sprint m id ings t !! "updatedAt" = Some (VTime t).
Proof. unfold meal_doc. by simplify_map_eq. Qed.

(** Two documents of the same record differ in updatedAt only. *)
Lemma meal_doc_time (m : gmap string value) (id : string)
    (ings : list value) (t t' : Time) (f : string) :
  f <> "updatedAt" ->
  meal_doc Sprint m id ings t !! f = meal_doc Sprint m id ings t' !! f.
Proof.
  intros Hf. unfold meal_doc. rewrite !lookup_insert.
  repeat case_decide; congruence.
Qed.

Lemma meal_doc_None (m m' : gmap string value) (id id' : string)
    (ings ings' : list value) (t t' : Time) (f : string) :
  meal_doc Sprint m id ings t !! f = None ->
  meal_doc Sprint m' id' ings' t' !! f = None.
Proof.
  rewrite !eq_None_not_Some, !meal_doc_fields. done.
Qed.

(** A later [$set] of an import overwrites all that an earlier one wrote. *)
Lemma meal_doc_absorb (m m' : gmap string value) (id id' : string)
    (ings ings' : list value) (t t' : Time) (old : gmap string value) :
  meal_doc Sprint m' id' ings' t' ∪ (meal_doc Sprint m id ings t ∪ old)
  = meal_doc Sprint m' id' ings' t' ∪ old.
Proof.
  apply map_eq. intros f.
  destruct (meal_doc Sprint m' id' ings' t' !! f) as [v|] eqn:E.
  - by rewrite !(lookup_union_Some_l _ _ _ v).
  - rewrite !lookup_union_r; try done.
    by apply (meal_doc_None m' m id' id ings' ings t' t).
Qed.

Lemma new_doc_union (upd : gmap string value) (id : string) (v : value) :
  upd !! "idMeal" = Some (VString id) ->
  upd !! "_id" = None ->
  <["_id" := v]> (upd ∪ {["idMeal" := VString id]}) = upd ∪ {["_id" := v]}.
Proof.
  intros Hid Hoid. apply map_eq. intros f.
  destruct (decide (f = "_id")) as [->|Hf].
  - rewrite lookup_insert_eq, lookup_union_r by done. by rewrite lookup_singleton_eq.
  - rewrite lookup_insert_ne by done.
    destruct (upd !! f) as [x|] eqn:E.
    + by rewrite !(lookup_union_Some_l _ _ _ x).
    + rewrite !lookup_union_r by done.
      rewrite !lookup_singleton_ne; [done | done | congruence].
Qed.

End Docs.

Lemma set_first_length (id : string) (upd : gmap string value)
    (ds ds' : list (gmap string value)) :
  set_first id upd ds = Some ds' -> length ds' = length ds.
Proof.
  revert ds'; induction ds as [|d ds IH]; intros ds'; simpl; [done|].
  destruct (has_id id d); [by intros [= <-]|].
  destruct (set_first id upd ds) as [ds''|]; [|done].
  intros [= <-]. simpl. by rewrite (IH ds'').
Qed.

(** An upsert under a key the collection holds adds no document. *)
Lemma upsert_present (id : string) (upd : gmap string value) (c : collection) :
  upd !! "idMeal" = Some (VString id) ->
  is_Some (find_id id c) ->
  length (docs (upsert id upd c)) = length (docs c) /\
  next_oid (upsert id upd c) = next_oid c.
Proof.
  intros Hupd [old Hold]. unfold upsert, find_id in *.
  pose proof (set_first_spec id upd (docs c) Hupd) as Hs.
  rewrite Hold in Hs. destruct Hs as (ds' & Hs & _). rewrite Hs. simpl.
  split; [by apply (set_first_length id upd)|done].
Qed.

Lemma last_record_key (k : string) (raw : list (gmap string value))
    (m : gmap string value) :
  last_record k raw = Some m -> natural_key m = k /\ k <> "".
Proof.
  induction raw as [|r raw IH]; simpl; [done|].
  destruct (last_record k raw) as [m'|]; [by intros [= <-]; apply IH|].
  unfold keyed.
  destruct (String.eqb_spec (natural_key r) ""); simpl; [done|].
  destruct (String.eqb_spec (natural_key r) k); [|done].
  intros [= <-]. split; [done | congruence].
Qed.

Lemma last_record_is_Some (raw : list (gmap string value)) (m : gmap string value) :
  m ∈ raw -> keyed m = true -> is_Some (last_record (natural_key m) raw).
Proof.
  intros Hin Hk. induction raw as [|r raw IH]; [by apply elem_of_nil in Hin|].
  simpl. apply elem_of_cons in Hin as [<- | Hin].
  - destruct (last_record (natural_key m) raw); [eauto|].
    rewrite Hk, String.eqb_refl. eauto.
  - destruct (IH Hin) as [m' ->]. eauto.
Qed.

(** The upsert made for the last record with a key is one of the upserts
    of the run. *)
Lemma last_upsert_bounds (k : string) (raw : list (gmap string value)) :
  forall n j, last_upsert k raw n = Some j -> n <= j < n + upserts raw.
Proof.
  unfold upserts.
  induction raw as [|r raw IH]; intros n j H; [discriminate H|].
  cbn [last_upsert List.filter] in *. destruct (keyed r); cbn [length].
  - destruct (last_upsert k raw (S n)) as [j'|] eqn:Hj.
    + injection H as <-. apply IH in Hj. lia.
    + destruct (String.eqb (natural_key r) k); [|discriminate H].
      injection H as <-. lia.
  - by apply IH.
Qed.

Section Runs.
Variable Sprint : value -> string.
Variables (s : Store) (env : ImportEnv).
Hypothesis no_fault : forall n, update_err_at env n = None.

Lemma import_skip (m : gmap string value) (n : nat)
    (raw : list (gmap string value)) (w : world) :
  natural_key m = "" ->
  import_records Sprint s env n (m :: raw) w = import_records Sprint s env n raw w.
Proof. intros H. simpl. by rewrite H. Qed.

Lemma import_step (m : gmap string value) (n : nat)
    (raw : list (gmap string value)) (w : world) :
  natural_key m <> "" ->
  import_records Sprint s env n (m :: raw) w
  = import_records Sprint s env (S n) raw
      (with_meals
         (upsert (natural_key m)
            (meal_doc Sprint m (natural_key m) (build_ingredients Sprint m)
               (now_at env n))
            (meals w))
         (record_call (MongoUpdateOne (natural_key m)) w)).
Proof.
  intros H. cbn [import_records].
  destruct (String.eqb_spec (natural_key m) ""); [done|].
  unfold UpdateOne. by rewrite no_fault.
Qed.

Lemma import_no_error (raw : list (gmap string value)) (n : nat) (w : world) :
  snd (import_records Sprint s env n raw w) = None.
Proof.
  revert n w; induction raw as [|m raw IH]; intros n w; [done|].
  destruct (String.eqb_spec (natural_key m) "") as [He|Hne].
  - rewrite import_skip by done. apply IH.
  - rewrite import_step by done. apply IH.
Qed.

(** What a run without failures leaves under the key [k]: the document of
    the last record that has this key, stamped with the clock reading of
    the upsert made for that record, laid over what was there. *)
Lemma import_find_at (k : string) (raw : list (gmap string value)) :
  forall (n : nat) (w : world),
    match last_record k raw with
    | None =>
        last_upsert k raw n = None /\
        find_id k (meals (fst (import_records Sprint s env n raw w)))
        = find_id k (meals w)
    | Some m =>
        exists j base,
          last_upsert k raw n = Some j /\
          find_id k (meals (fst (import_records Sprint s env n raw w)))
          = Some (meal_doc Sprint m k (build_ingredients Sprint m) (now_at env j)
                  ∪ base) /\
          forall old, find_id k (meals w) = Some old -> base = old
    end.
Proof.
  induction raw as [|r raw IH]; intros n w; [done|].
  cbn [last_record last_upsert]. unfold keyed.
  destruct (String.eqb_spec (natural_key r) "") as [He|Hne].
  { rewrite import_skip by done. cbn [negb andb]. specialize (IH n w).
    by destruct (last_record k raw). }
  rewrite import_step by done. cbn [negb andb].
  set (doc := meal_doc Sprint r (natural_key r) (build_ingredients Sprint r) (now_at env n)).
  set (w1 := with_meals _ _).
  assert (Hm1 : meals w1 = upsert (natural_key r) doc (meals w)) by done.
  assert (Hdoc : doc !! "idMeal" = Some (VString (natural_key r)))
    by apply meal_doc_id.
  specialize (IH (S n) w1). rewrite Hm1 in IH.
  destruct (last_record k raw) as [m'|].
  - destruct IH as (j & base & Hj & Hfind & Hbase). rewrite Hj.
    destruct (String.eqb_spec (natural_key r) k) as [Hk|Hk].
    + destruct (find_id k (meals w)) as [old|] eqn:Hold.
      * exists j, old. split; [done|]. split; [|by intros ? [= <-]].
        rewrite Hfind. f_equal.
        rewrite (Hbase (doc ∪ old)).
        -- apply meal_doc_absorb.
        -- rewrite <- Hk. apply find_upsert_old; [done | by rewrite Hk].
      * exists j, base. split; [done|]. split; [done | done].
    + exists j, base. split; [done|]. split; [done|].
      intros old Hold. apply Hbase.
      rewrite find_upsert_other; [done | done | congruence].
  - destruct IH as [Hj IH]. rewrite Hj.
    destruct (String.eqb_spec (natural_key r) k) as [Hk|Hk].
    + rewrite IH. subst k.
      destruct (find_id (natural_key r) (meals w)) as [old|] eqn:Hold.
      * exists n, old. split; [done|]. split; [|by intros ? [= <-]].
        by apply find_upsert_old.
      * exists n, {["_id" := VObjectID (next_oid (meals w))]}.
        split; [done|]. split; [|done].
        rewrite find_upsert_new by done. apply (f_equal Some).
        apply new_doc_union; [done|].
        apply eq_None_not_Some. unfold doc. rewrite meal_doc_fields.
        unfold doc_fields. rewrite !elem_of_cons, elem_of_nil.
        intros H; repeat (destruct H as [H|H]; [discriminate H|]); done.
    + split; [done|]. rewrite IH. apply find_upsert_other; [done | congruence].
Qed.

Lemma import_find (k : string) (raw : list (gmap string value)) :
  forall (n : nat) (w : world),
    match last_record k raw with
    | None =>
        find_id k (meals (fst (import_records Sprint s env n raw w)))
        = find_id k (meals w)
    | Some m =>
        exists j base,
          find_id k (meals (fst (import_records Sprint s env n raw w)))
          = Some (meal_doc Sprint m k (build_ingredients Sprint m) (now_at env j)
                  ∪ base) /\
          forall old, find_id k (meals w) = Some old -> base = old
    end.
Proof.
  intros n w. pose proof (import_find_at k raw n w) as H.
  destruct (last_record k raw) as [m|].
  - destruct H as (j & base & _ & H). by exists j, base.
  - by destruct H.
Qed.

(** A run over records whose keys the collection already holds adds no
    document. *)
Lemma import_no_insert (raw : list (gmap string value)) :
  forall (n : nat) (w : world),
    (forall m, m ∈ raw -> keyed m = true ->
               is_Some (find_id (natural_key m) (meals w))) ->
    length (docs (meals (fst (import_records Sprint s env n raw w))))
    = length (docs (meals w)) /\
    next_oid (meals (fst (import_records Sprint s env n raw w)))
    = next_oid (meals w).
Proof.
  induction raw as [|r raw IH]; intros n w Hall; [done|].
  destruct (String.eqb_spec (natural_key r) "") as [He|Hne].
  { rewrite import_skip by done. apply IH.
    intros m Hm. apply Hall. by apply elem_of_cons; right. }
  rewrite import_step by done.
  set (doc := meal_doc Sprint r (natural_key r) (build_ingredients Sprint r) (now_at env n)).
  assert (Hdoc : doc !! "idMeal" = Some (VString (natural_key r)))
    by apply meal_doc_id.
  assert (Hr : is_Some (find_id (natural_key r) (meals w))).
  { apply Hall; [by apply elem_of_cons; left|].
    unfold keyed. by destruct (String.eqb_spec (natural_key r) ""). }
  destruct (upsert_present (natural_key r) doc (meals w) Hdoc Hr) as [Hl Ho].
  set (w1 := with_meals _ _).
  destruct (IH (S n) w1) as [IHl IHo].
  { intros m Hm Hk. apply find_upsert_is_Some; [done|].
    apply Hall; [by apply elem_of_cons; right | done]. }
  split; [by rewrite IHl | by rewrite IHo].
Qed.

End Runs.

(** C2, as the code has it.  When the same records are imported twice
    and no upsert fails, then for every key: the document stored after the
    second run equals the one stored after the first in every field but
    updatedAt; the second run adds no document; updatedAt holds the clock
    reading that the second run took for the upsert of the last record
    with this key, which is one of the upserts of that run; and a field
    that the import does not write, found on a document stored before, is
    still there (the upsert is a [$set], a merge). *)
Theorem import_twice (Sprint : value -> string) (s : Store)
    (env1 env2 : ImportEnv) (raw : list (gmap string value)) (w : world)
    (k : string) :
  (forall n, update_err_at env1 n = None) ->
  (forall n, update_err_at env2 n = None) ->
  let r1 := import_records Sprint s env1 0 raw w in
  let r2 := import_records Sprint s env2 0 raw (fst r1) in
  snd r1 = None /\ snd r2 = None /\
  delete "updatedAt" <$> find_id k (meals (fst r2))
  = delete "updatedAt" <$> find_id k (meals (fst r1)) /\
  length (docs (meals (fst r2))) = length (docs (meals (fst r1))) /\
  (forall m, last_record k raw = Some m ->
     exists j d, last_upsert k raw 0 = Some j /\ j < upserts raw /\
                 find_id k (meals (fst r2)) = Some d /\
                 d !! "updatedAt" = Some (VTime (now_at env2 j))) /\
  (forall old f, find_id k (meals w) = Some old -> f ∉ doc_fields ->
     exists d, find_id k (meals (fst r1)) = Some d /\ d !! f = old !! f).
Proof.
  intros Hnf1 Hnf2 r1 r2. subst r1 r2.
  set (w1 := fst (import_records Sprint s env1 0 raw w)).
  pose proof (import_find Sprint s env1 Hnf1 k raw 0 w) as H1.
  pose proof (import_find Sprint s env2 Hnf2 k raw 0 w1) as H2.
  pose proof (import_find_at Sprint s env2 Hnf2 k raw 0 w1) as H2'.
  fold w1 in H1.
  split; [by apply import_no_error|]. split; [by apply import_no_error|].
  split; [|split; [|split]].
  - destruct (last_record k raw) as [m|]; [|by rewrite H2].
    destruct H1 as (j1 & base1 & Hf1 & _).
    destruct H2 as (j2 & base2 & Hf2 & Hb2).
    rewrite Hf2, Hf1, (Hb2 _ Hf1), meal_doc_absorb.
    unfold fmap, option_fmap, option_map. apply (f_equal Some).
    apply map_eq. intros f. destruct (decide (f = "updatedAt")) as [->|Hf].
    + by rewrite !lookup_delete_eq.
    + rewrite !lookup_delete_ne by done. rewrite !lookup_union.
      by rewrite (meal_doc_time Sprint m k _ (now_at env2 j2) (now_at env1 j1) f Hf).
  - apply (import_no_insert Sprint s env2 Hnf2 raw 0 w1).
    intros m Hm Hk.
    destruct (last_record_is_Some raw m Hm Hk) as [m' Hm'].
    pose proof (import_find Sprint s env1 Hnf1 (natural_key m) raw 0 w) as H.
    rewrite Hm' in H. destruct H as (j & base & H & _).
    unfold w1. rewrite H. eauto.
  - intros m Hm. rewrite Hm in H2'. destruct H2' as (j2 & base2 & Hj2 & Hf2 & _).
    exists j2. eexists. split; [exact Hj2|].
    split; [apply (last_upsert_bounds k raw 0 j2 Hj2)|].
    split; [exact Hf2|].
    apply lookup_union_Some_l, meal_doc_updatedAt.
  - intros old f Hold Hf. destruct (last_record k raw) as [m|].
    + destruct H1 as (j1 & base1 & Hf1 & Hb1). rewrite (Hb1 _ Hold) in Hf1.
      eexists. split; [exact Hf1|]. apply lookup_union_r.
      apply eq_None_not_Some. by rewrite meal_doc_fields.
    + exists old. by rewrite H1.
Qed.

Lemma import_twice_witness :
  let r1 := import_records no_Sprint store0 (env_ticking 1000%Z) 0 [meal_a; meal_b] world_noted in
  let r2 := import_records no_Sprint store0 (env_ticking 2000%Z) 0 [meal_a; meal_b] (fst r1) in
  delete "updatedAt" <$> find_id "52773" (meals (fst r2))
  = delete "updatedAt" <$> find_id "52773" (meals (fst r1)) /\
  length (docs (meals (fst r2))) = length (docs (meals (fst r1))) /\
  exists j d, last_upsert "52773" [meal_a; meal_b] 0 = Some j /\
              j < upserts [meal_a; meal_b] /\
              find_id "52773" (meals (fst r2)) = Some d /\
              d !! "updatedAt" = Some (VTime (now_at (env_ticking 2000%Z) j)).
Proof.
  pose proof (import_twice no_Sprint store0 (env_ticking 1000%Z) (env_ticking 2000%Z)
                [meal_a; meal_b] world_noted "52773"
                (fun _ => eq_refl) (fun _ => eq_refl)) as H.
  split; [exact (proj1 (proj2 (proj2 H)))|].
  split; [exact (proj1 (proj2 (proj2 (proj2 H))))|].
  exact (proj1 (proj2 (proj2 (proj2 (proj2 H)))) meal_b eq_refl).
Defined.

(** C2 as stated fails twice over.  The document stored after a second
    run differs from the one stored after the first: its updatedAt is the
    later clock reading.  And an upsert over a stored document keeps a
    field that the normalized document does not have: the stored document
    is merged into, not replaced. *)
Lemma import_twice_not_identical :
  let doc := meal_doc no_Sprint meal_a "52772" (build_ingredients no_Sprint meal_a) 1000%Z in
  let w1 := fst (import_records no_Sprint store0 (env_at 1000%Z) 0 [meal_a] world_noted) in
  let w2 := fst (import_records no_Sprint store0 (env_at 2000%Z) 0 [meal_a] w1) in
  find_id "52772" (meals w2) <> find_id "52772" (meals w1) /\
  find_id "52772" (meals w1) <> Some doc /\
  (find_id "52772" (meals w1) ≫= lookup "note") = Some (VString "family favourite") /\
  doc !! "note" = None.
Proof.
  split; [|split; [|split]].
  - intros H. apply (f_equal (fun o => o ≫= lookup "updatedAt")) in H.
    vm_compute in H. discriminate H.
  - intros H. apply (f_equal (fun o => o ≫= lookup "note")) in H.
    vm_compute in H. discriminate H.
  - vm_compute. reflexivity.
  - vm_compute. reflexivity.
Qed.

End Idempotence.

(** ** Witnesses and counterexample for the import loop *)

Module ImportSamples.
Import GoStrings Values World Store Properties ImportFacts.

Lemma ingredients_from_slots_witness :
  build_ingredients no_Sprint meal_a
  = [VMap (<["name" := VString "soy sauce"]> (<["measure" := VString "3/4 cup"]> ∅));
     VMap (<["name" := VString "water"]> (<["measure" := VString "1/2 cup"]> ∅))] /\
  kept_slots no_Sprint meal_a = [1; 3].
Proof.
  split.
  - rewrite (proj1 (ingredients_from_slots no_Sprint meal_a "52772" 0%Z)).
    vm_compute. reflexivity.
  - vm_compute. reflexivity.
Defined.

Lemma import_skips_unkeyed_witness :
  import_records no_Sprint store0 (env_at 1000%Z) 0 [meal_a; meal_numeric_id; meal_b] world0
  = import_records no_Sprint store0 (env_at 1000%Z) 0 [meal_a; meal_b] world0 /\
  import_records no_Sprint store0 (env_at 1000%Z) 0 [∅; meal_b] world0
  = import_records no_Sprint store0 (env_at 1000%Z) 0 [meal_b] world0.
Proof.
  split.
  - apply (import_skips_unkeyed no_Sprint store0 (env_at 1000%Z) 0 [meal_a] [meal_b]
             meal_numeric_id world0).
    right; right. exists (VFloat64 0x40E9C48000000000). split; [reflexivity | discriminate].
  - apply (import_skips_unkeyed no_Sprint store0 (env_at 1000%Z) 0 [] [meal_b] ∅ world0).
    left. reflexivity.
Defined.

Lemma import_stops_at_first_failure_witness :
  let w1 := fst (import_records no_Sprint store0 env_fail_second 0 [meal_a] world0) in
  let r := import_records no_Sprint store0 env_fail_second 0 [meal_a; meal_b; meal_a] world0 in
  snd r = Some (Err "connection refused") /\ meals (fst r) = meals w1.
Proof.
  intros w1 r.
  destruct (import_stops_at_first_failure no_Sprint store0 env_fail_second
              [meal_a] [meal_a] meal_b world0 w1 (Err "connection refused"))
    as (Hr & Hm & _).
  - reflexivity.
  - discriminate.
  - reflexivity.
  - split; [exact (f_equal snd Hr) | exact Hm].
Defined.

(** C3 as stated fails: the error that reaches the caller is the one the
    failed [UpdateOne] returned, with nothing attached; its text does not
    mention the key of the record. *)
Lemma import_error_lacks_key :
  natural_key meal_b = "52773" /\
  snd (import_records no_Sprint store0 env_fail_second 0 [meal_a; meal_b] world0)
  = Some (Err "connection refused") /\
  carries_key (Err "connection refused") "52773" = false.
Proof. repeat split; vm_compute; reflexivity. Qed.

End ImportSamples.

(** ** The cache-aside read and the construction: claims C4, C5, C6 *)

Module CacheAside.
Import GoStrings Values World Store Properties CollectionFacts.

Section Get.
Variable json_Marshal : gmap string value -> option string.
Variable json_Unmarshal : string -> option (option (gmap string value)).

Abbreviation Get := (GetMealByID json_Marshal json_Unmarshal).

(** After a miss, [GetMealByID] is a read of the primary store followed
    by the attempt to fill the cache. *)
Lemma Get_after_miss (s : Store) (env : GetEnv) (id : string) (w w1 : world) :
  try_cache json_Unmarshal s env ("meal:" +:+ id) w = (w1, None) ->
  meals w1 = meals w ->
  snd (Get s env id w) = primary_outcome env id w.
Proof.
  intros Hmiss Hmeals. unfold GetMealByID, primary_outcome. rewrite Hmiss.
  unfold FindOne. destruct (find_err env) as [err|].
  - by destruct (error_eqb err ErrNoDocuments).
  - cbn [record_call meals]. rewrite Hmeals.
    by destruct (find_id id (meals w)).
Qed.

Lemma try_cache_meals (s : Store) (env : GetEnv) (key : string) (w : world) :
  meals (fst (try_cache json_Unmarshal s env key w)) = meals w.
Proof.
  unfold try_cache, redisGet. destruct (rdb s); [|done].
  destruct (get_err env); [done|]. cbn [record_call cache].
  destruct (cache w !! key) as [[b e]|]; [|done].
  by destruct (now env <? e)%Z.
Qed.

(** Without a client, the cache is not consulted. *)
Lemma Get_no_client (s : Store) (env : GetEnv) (id : string) (w : world) :
  rdb s = None ->
  Get s env id w = (record_call (MongoFindOne id) w, primary_outcome env id w).
Proof.
  intros Hr. unfold GetMealByID, try_cache, fill_cache, primary_outcome, FindOne.
  rewrite Hr. destruct (find_err env) as [err|].
  - by destruct (error_eqb err ErrNoDocuments).
  - cbn [record_call meals]. by destruct (find_id id (meals w)).
Qed.

(** C5.  On a world whose cache entries all stand for stored documents,
    a lookup of a key the collection does not hold, with both backends
    answering, returns no document and no error.  An error returned is
    the error of the primary store's read, and never the not-found
    error.  A failing cache read, or a cached value that does not
    decode, gives what the primary store alone gives. *)
Theorem Get_errors (s : Store) (env : GetEnv) (id : string) (w : world) :
  (cache_backed w -> get_err env = None -> find_err env = None ->
   find_id id (meals w) = None ->
   snd (Get s env id w) = (None, None)) /\
  (forall e, snd (snd (Get s env id w)) = Some e ->
     find_err env = Some e /\ error_eqb e ErrNoDocuments = false) /\
  (forall e, get_err env = Some e ->
     snd (Get s env id w) = primary_outcome env id w) /\
  (forall b expiry, get_err env = None ->
     cache w !! ("meal:" +:+ id) = Some (b, expiry) ->
     json_Unmarshal b = None ->
     snd (Get s env id w) = primary_outcome env id w).
Proof.
  split; [|split; [|split]].
  - intros Hback Hget Hfind Hnone.
    assert (Hc : cache w !! ("meal:" +:+ id) = None).
    { destruct (cache w !! ("meal:" +:+ id)) as [[b e]|] eqn:E; [|done].
      destruct (Hback id b e E) as [d Hd]. congruence. }
    assert (Hmiss : snd (try_cache json_Unmarshal s env ("meal:" +:+ id) w) = None).
    { unfold try_cache, redisGet. destruct (rdb s); [|done].
      rewrite Hget. cbn [record_call cache]. by rewrite Hc. }
    rewrite (Get_after_miss s env id w
               (fst (try_cache json_Unmarshal s env ("meal:" +:+ id) w))).
    + unfold primary_outcome. by rewrite Hfind, Hnone.
    + rewrite <- Hmiss. apply surjective_pairing.
    + apply try_cache_meals.
  - intros e. unfold GetMealByID.
    destruct (try_cache _ _ _ _ _) as [w1 [out|]]; [done|].
    unfold FindOne. destruct (find_err env) as [err|].
    + destruct (error_eqb err ErrNoDocuments) eqn:E; [done|].
      cbn. by intros [= ->].
    + cbn [record_call meals]. by destruct (find_id id (meals w1)).
  - intros e Hget.
    apply (Get_after_miss s env id w
             (fst (try_cache json_Unmarshal s env ("meal:" +:+ id) w))).
    + unfold try_cache, redisGet. destruct (rdb s); [|done]. by rewrite Hget.
    + apply try_cache_meals.
  - intros b expiry Hget Hc Hdec.
    apply (Get_after_miss s env id w
             (fst (try_cache json_Unmarshal s env ("meal:" +:+ id) w))).
    + unfold try_cache, redisGet. destruct (rdb s); [|done].
      rewrite Hget. cbn [record_call cache]. rewrite Hc.
      destruct (now env <? expiry)%Z; [by rewrite Hdec | done].
    + apply try_cache_meals.
Qed.

(** C4, as the code has it.  With a client, a lookup that misses the
    cache and finds the document in the primary store returns it, whatever
    happens to the write to the cache; the calls are the cache read, the
    primary read and, when the document serializes, the cache write with
    24 hours.  When that write goes through, the entry holds the
    serialized document and expires 24 hours after the lookup.  A later
    lookup before that time, on any world with this cache, whatever the
    state of the primary store, makes one call, the cache read, leaves the
    cache as it is, and returns what the cached bytes decode to.  That is
    not the document of the first lookup when this one holds an ObjectID
    under _id, as every stored document does, since the decoder makes
    values of the JSON kinds only. *)
Theorem Get_cache_aside (s : Store) (client : RedisClient) (env1 env2 : GetEnv)
    (id : string) (w : world) (d : gmap string value) :
  rdb s = Some client ->
  find_id id (meals w) = Some d ->
  find_err env1 = None ->
  snd (try_cache json_Unmarshal s env1 ("meal:" +:+ id) w) = None ->
  let key := "meal:" +:+ id in
  let r1 := Get s env1 id w in
  snd r1 = (Some d, None) /\
  meals (fst r1) = meals w /\
  calls (fst r1)
  = calls w ++ [RedisGet key; MongoFindOne id]
    ++ match json_Marshal d with
       | Some _ => [RedisSet key (24 * Hour)]
       | None => []
       end /\
  (forall bb, json_Marshal d = Some bb -> set_err env1 = None ->
     cache (fst r1) = <[key := (bb, (now env1 + 86400000000000)%Z)]> (cache w) /\
     forall w2 out, cache w2 = cache (fst r1) ->
       get_err env2 = None ->
       (now env2 < now env1 + 86400000000000)%Z ->
       json_Unmarshal bb = Some out ->
       Get s env2 id w2 = (record_call (RedisGet key) w2, (out, None)) /\
       ((forall b o f v, json_Unmarshal b = Some (Some o) -> o !! f = Some v ->
                         json_kind v = true) ->
        forall n, d !! "_id" = Some (VObjectID n) ->
        out <> Some d)).
Proof.
  intros Hr Hfound Hfind Hmiss key r1. subst r1 key.
  assert (Htc : try_cache json_Unmarshal s env1 ("meal:" +:+ id) w
                = (record_call (RedisGet ("meal:" +:+ id)) w, None)).
  { revert Hmiss. unfold try_cache, redisGet. rewrite Hr.
    destruct (get_err env1); [done|]. cbn [record_call cache].
    destruct (cache w !! ("meal:" +:+ id)) as [[b e]|]; [|done].
    destruct (now env1 <? e)%Z; [|done]. cbn [snd]. by intros ->. }
  assert (Hget : Get s env1 id w
    = (fill_cache json_Marshal s env1 ("meal:" +:+ id) d
         (record_call (MongoFindOne id)
            (record_call (RedisGet ("meal:" +:+ id)) w)),
       (Some d, None))).
  { unfold GetMealByID. rewrite Htc. unfold FindOne. rewrite Hfind.
    cbn [record_call meals]. by rewrite Hfound. }
  rewrite Hget. unfold fill_cache, redisSet. rewrite Hr.
  split; [done|]. split; [|split].
  - destruct (json_Marshal d); [|done]. by destruct (set_err env1).
  - destruct (json_Marshal d).
    + destruct (set_err env1); cbn [fst calls record_call with_cache];
        rewrite <- !app_assoc; reflexivity.
    + cbn [fst calls record_call]. rewrite <- !app_assoc. reflexivity.
  - intros bb Hbb Hset. rewrite Hbb, Hset. cbn [fst with_cache record_call cache].
    split; [done|].
    intros w2 out Hc2 Hget2 Hnow Hdec. split.
    + unfold GetMealByID, try_cache, redisGet.
      rewrite Hr, Hget2. cbn [record_call cache]. rewrite Hc2, lookup_insert_eq.
      change (24 * Hour)%Z with 86400000000000%Z.
      apply Z.ltb_lt in Hnow. by rewrite Hnow, Hdec.
    + intros Hkinds n Hid ->.
      pose proof (Hkinds bb d "_id" (VObjectID n) Hdec Hid) as Hk.
      discriminate Hk.
Qed.

(** The reads keep every cache entry backed by a stored document. *)
Lemma Get_keeps_cache_backed (s : Store) (env : GetEnv) (id : string) (w : world) :
  cache_backed w -> cache_backed (fst (Get s env id w)).
Proof.
  intros Hback. unfold GetMealByID.
  destruct (try_cache json_Unmarshal s env ("meal:" +:+ id) w) as [w1 o] eqn:Htc.
  assert (Hw1 : cache w1 = cache w /\ meals w1 = meals w).
  { revert Htc. unfold try_cache, redisGet. destruct (rdb s); [|by intros [= <- _]].
    destruct (get_err env); [by intros [= <- _]|]. cbn [record_call cache].
    destruct (cache w !! _) as [[b e]|]; [|by intros [= <- _]].
    destruct (now env <? e)%Z; by intros [= <- _]. }
  destruct Hw1 as [Hc1 Hm1].
  assert (Hb1 : cache_backed w1).
  { intros i b e. rewrite Hc1, Hm1. apply Hback. }
  destruct o as [out|]; [done|].
  unfold FindOne. destruct (find_err env) as [err|].
  { by destruct (error_eqb err ErrNoDocuments). }
  cbn [record_call meals].
  destruct (find_id id (meals w1)) as [d|] eqn:Hd; [|done].
  cbn [fst]. unfold fill_cache, redisSet.
  destruct (rdb s); [|done]. destruct (json_Marshal d); [|done].
  destruct (set_err env); [done|].
  intros i b e. cbn [fst with_cache record_call cache meals]. destruct (decide ("meal:" +:+ id = "meal:" +:+ i)) as [Heq|Hne].
  - apply StringFacts.append_inv_head in Heq. subst i.
    intros _. exists d. exact Hd.
  - rewrite lookup_insert_ne by done. apply Hb1.
Qed.

End Get.

(** C6.  When MongoDB answers and the ping to a configured Redis fails,
    [New] returns a store and no error; the store has no Redis client;
    with a logger, the log gains the warning.  Every lookup through a
    store without a client is one read of the primary store and gives
    what the primary store alone gives.  When the connection to MongoDB
    or its ping fails, [New] returns that error and no store. *)
Theorem New_degraded_mode
    (json_Marshal : gmap string value -> option string)
    (json_Unmarshal : string -> option (option (gmap string value)))
    (env : StartEnv) (mongoURI dbName redisAddr : string)
    (sugar : option SugaredLogger) (w : world) :
  (forall err, mongo_connect env = None -> mongo_ping env = None ->
     redisAddr <> "" -> redis_ping env = Some err ->
     let warning := Entry WarnLevel
                      "redis ping failed; continuing without redis caching"
                      [("error", FError err)] in
     exists st,
       New env mongoURI dbName redisAddr sugar w
       = (logw sugar warning w, (Some st, None)) /\
       rdb st = None /\
       (sugar <> None -> logs (logw sugar warning w) = logs w ++ [warning]) /\
       forall genv id w',
         GetMealByID json_Marshal json_Unmarshal st genv id w'
         = (record_call (MongoFindOne id) w', primary_outcome genv id w')) /\
  (forall err,
     mongo_connect env = Some err \/
     (mongo_connect env = None /\ mongo_ping env = Some err) ->
     snd (New env mongoURI dbName redisAddr sugar w) = (None, Some err)).
Proof.
  split.
  - intros err Hc Hp Haddr Hr warning. unfold New. rewrite Hc, Hp, Hr.
    destruct (String.eqb_spec redisAddr ""); [done|].
    eexists. split; [reflexivity|]. split; [done|]. split.
    + destruct sugar; [done|]. by intros H.
    + intros genv id w'. by apply Get_no_client.
  - intros err [Hc | [Hc Hp]]; unfold New.
    + by rewrite Hc.
    + by rewrite Hc, Hp.
Qed.

Lemma Get_errors_witness :
  snd (GetMealByID sample_Marshal sample_Unmarshal store_cached
         (get_env 0%Z) "99999" world_a) = (None, None) /\
  snd (GetMealByID sample_Marshal sample_Unmarshal store_cached
         (MkGetEnv 0%Z (Some (Err "redis: connection pool timeout")) None None)
         "52772" world_a) = (Some doc_a, None).
Proof.
  split.
  - apply (Get_errors sample_Marshal sample_Unmarshal store_cached
             (get_env 0%Z) "99999" world_a); try reflexivity.
    intros i b e H. vm_compute in H. discriminate H.
  - apply (proj1 (proj2 (proj2 (Get_errors sample_Marshal sample_Unmarshal
             store_cached
             (MkGetEnv 0%Z (Some (Err "redis: connection pool timeout")) None None)
             "52772" world_a))) (Err "redis: connection pool timeout")).
    reflexivity.
Defined.

Lemma Get_cache_aside_witness :
  let r1 := GetMealByID Marshal_a Unmarshal_a store_cached
              (get_env 0%Z) "52772" world_a in
  snd r1 = (Some doc_a, None) /\
  cache (fst r1) = <["meal:52772" := (json_a, 86400000000000%Z)]> ∅ /\
  GetMealByID Marshal_a Unmarshal_a store_cached
    (MkGetEnv 3600000000000%Z None (Some (Err "server selection timeout")) None)
    "52772" (fst r1)
  = (record_call (RedisGet "meal:52772") (fst r1), (Some doc_a_decoded, None)).
Proof.
  intros r1.
  destruct (Get_cache_aside Marshal_a Unmarshal_a store_cached
              (NewClient "redis:6379") (get_env 0%Z)
              (MkGetEnv 3600000000000%Z None (Some (Err "server selection timeout")) None)
              "52772" world_a doc_a)
    as (Hres & _ & _ & Hlater); try reflexivity.
  split; [exact Hres|].
  destruct (Hlater json_a eq_refl eq_refl) as [Hcache Hsecond].
  split; [exact Hcache|].
  apply (Hsecond (fst r1) (Some doc_a_decoded)); reflexivity.
Defined.

(** C4 as stated fails: the second lookup does not return the same
    document.  The first lookup of 52772 returns the stored document,
    whose _id is an ObjectID; the second, served from the cache an hour
    later, returns the decoding of the cached JSON text, whose _id is the
    string of the 24 hexadecimal digits. *)
Lemma Get_cached_differs :
  let r1 := GetMealByID Marshal_a Unmarshal_a store_cached
              (get_env 0%Z) "52772" world_a in
  let r2 := GetMealByID Marshal_a Unmarshal_a store_cached
              (get_env 3600000000000%Z) "52772" (fst r1) in
  snd r1 = (Some doc_a, None) /\
  snd r2 = (Some doc_a_decoded, None) /\
  calls (fst r2) = calls (fst r1) ++ [RedisGet "meal:52772"] /\
  snd r2 <> snd r1 /\
  doc_a !! "_id" = Some (VObjectID 0) /\
  doc_a_decoded !! "_id" = Some (VString "000000000000000000000000").
Proof.
  split; [reflexivity|]. split; [reflexivity|]. split; [reflexivity|].
  split; [|split; reflexivity].
  intros H.
  apply (f_equal (fun r => fst r ≫= lookup "_id")) in H.
  vm_compute in H. discriminate H.
Qed.

Lemma New_degraded_mode_witness :
  (exists st,
     New start_no_redis "mongodb://mongo:27017" "meal_prep" "redis:6379"
       (Some Sugar) world0
     = (write_log
          (Entry WarnLevel "redis ping failed; continuing without redis caching"
             [("error", FError (Err "dial tcp: connection refused"))]) world0,
        (Some st, None)) /\
     rdb st = None) /\
  snd (New (MkStartEnv None (Some (Err "server selection timeout")) None)
         "mongodb://mongo:27017" "meal_prep" "redis:6379" (Some Sugar) world0)
  = (None, Some (Err "server selection timeout")).
Proof.
  split.
  - destruct (proj1 (New_degraded_mode sample_Marshal sample_Unmarshal
                start_no_redis "mongodb://mongo:27017" "meal_prep" "redis:6379"
                (Some Sugar) world0)
                (Err "dial tcp: connection refused"))
      as (st & Hnew & Hrdb & _); try reflexivity; [discriminate|].
    exists st. split; [exact Hnew | exact Hrdb].
  - apply (proj2 (New_degraded_mode sample_Marshal sample_Unmarshal
             (MkStartEnv None (Some (Err "server selection timeout")) None)
             "mongodb://mongo:27017" "meal_prep" "redis:6379" (Some Sugar) world0)).
    right. split; reflexivity.
Defined.

End CacheAside.

(** ** More on the import loop and the lookup *)

Module StoreMore.
Import GoStrings Values World Store Properties CollectionFacts ImportFacts
  Idempotence CacheAside.

Section Runs.
Variable Sprint : value -> string.
Variables (s : Store) (env : ImportEnv).

Lemma import_cons_skip (m : gmap string value) (n : nat)
    (raw : list (gmap string value)) (w : world) :
  keyed m = false ->
  import_records Sprint s env n (m :: raw) w = import_records Sprint s env n raw w.
Proof.
  unfold keyed. intros H. cbn [import_records].
  by destruct (String.eqb (natural_key m) "").
Qed.

Lemma import_cons_fail (m : gmap string value) (n : nat)
    (raw : list (gmap string value)) (w : world) (err : error) :
  keyed m = true ->
  update_err_at env n = Some err ->
  import_records Sprint s env n (m :: raw) w
  = (logw (log s)
       (Entry ErrorLevel "failed to upsert meal"
          [("id", FString (natural_key m)); ("error", FError err)])
       (record_call (MongoUpdateOne (natural_key m)) w),
     Some err).
Proof.
  unfold keyed. intros H Herr. cbn [import_records].
  destruct (String.eqb (natural_key m) ""); [done|].
  unfold UpdateOne. by rewrite Herr.
Qed.

Lemma import_cons_ok (m : gmap string value) (n : nat)
    (raw : list (gmap string value)) (w : world) :
  keyed m = true ->
  update_err_at env n = None ->
  import_records Sprint s env n (m :: raw) w
  = import_records Sprint s env (S n) raw
      (with_meals
         (upsert (natural_key m)
            (meal_doc Sprint m (natural_key m) (build_ingredients Sprint m)
               (now_at env n))
            (meals w))
         (record_call (MongoUpdateOne (natural_key m)) w)).
Proof.
  unfold keyed. intros H Herr. cbn [import_records].
  destruct (String.eqb (natural_key m) ""); [done|].
  unfold UpdateOne. by rewrite Herr.
Qed.

Lemma logw_fields (sugar : option SugaredLogger) (e : entry) (w : world) :
  meals (logw sugar e w) = meals w /\ cache (logw sugar e w) = cache w /\
  calls (logw sugar e w) = calls w.
Proof. by destruct sugar. Qed.

(** The case analysis every proof about the loop goes through: a record
    is skipped, or its upsert fails and the run ends, or its upsert is
    applied and the run goes on. *)
Lemma import_records_ind (P : nat -> list (gmap string value) -> world ->
                              world * option error -> Prop) :
  (forall n w, P n [] w (w, None)) ->
  (forall n m raw w, keyed m = false ->
     P n raw w (import_records Sprint s env n raw w) ->
     P n (m :: raw) w (import_records Sprint s env n raw w)) ->
  (forall n m raw w err, keyed m = true -> update_err_at env n = Some err ->
     P n (m :: raw) w
       (logw (log s)
          (Entry ErrorLevel "failed to upsert meal"
             [("id", FString (natural_key m)); ("error", FError err)])
          (record_call (MongoUpdateOne (natural_key m)) w),
        Some err)) ->
  (forall n m raw w, keyed m = true -> update_err_at env n = None ->
     let w1 := with_meals
                 (upsert (natural_key m)
                    (meal_doc Sprint m (natural_key m)
                       (build_ingredients Sprint m) (now_at env n))
                    (meals w))
                 (record_call (MongoUpdateOne (natural_key m)) w) in
     P (S n) raw w1 (import_records Sprint s env (S n) raw w1) ->
     P n (m :: raw) w (import_records Sprint s env (S n) raw w1)) ->
  forall raw n w, P n raw w (import_records Sprint s env n raw w).
Proof.
  intros Hnil Hskip Hfail Hok. induction raw as [|m raw IH]; intros n w.
  - apply Hnil.
  - destruct (keyed m) eqn:Hk.
    + destruct (update_err_at env n) as [err|] eqn:Herr.
      * rewrite (import_cons_fail m n raw w err) by done. by apply Hfail.
      * rewrite import_cons_ok by done. apply Hok; [done | done | apply IH].
    + rewrite import_cons_skip by done. apply Hskip; [done | apply IH].
Qed.

Lemma import_trace (n : nat) (raw : list (gmap string value))
    (w : world) :
  let r := import_records Sprint s env n raw w in
  cache (fst r) = cache w /\
  (exists ids, ids `prefix_of` map natural_key (List.filter keyed raw) /\
               calls (fst r) = calls w ++ map MongoUpdateOne ids) /\
  (snd r = None ->
   calls (fst r)
   = calls w ++ map MongoUpdateOne (map natural_key (List.filter keyed raw))).
Proof.
  cbn zeta. revert raw n w.
  apply (import_records_ind (fun n raw w r =>
    cache (fst r) = cache w /\
    (exists ids, ids `prefix_of` map natural_key (List.filter keyed raw) /\
                 calls (fst r) = calls w ++ map MongoUpdateOne ids) /\
    (snd r = None ->
     calls (fst r)
     = calls w ++ map MongoUpdateOne (map natural_key (List.filter keyed raw))))).
  - intros n w. split; [done|]. split; [|by rewrite app_nil_r].
    exists []. by rewrite app_nil_r.
  - intros n m raw w Hk IH. cbn [List.filter]. by rewrite Hk.
  - intros n m raw w err Hk Herr. cbn [List.filter]. rewrite Hk. cbn [fst snd].
    destruct (logw_fields (log s)
                (Entry ErrorLevel "failed to upsert meal"
                   [("id", FString (natural_key m)); ("error", FError err)])
                (record_call (MongoUpdateOne (natural_key m)) w))
      as (_ & -> & ->).
    split; [done|]. split; [|done].
    exists [natural_key m]. split; [|done].
    cbn [map]. by apply prefix_cons, prefix_nil.
  - intros n m raw w Hk Herr w1 (IHc & (ids & Hp & IHcalls) & IHok).
    cbn [List.filter]. rewrite Hk. split; [by rewrite IHc|]. split.
    + exists (natural_key m :: ids). split; [by apply prefix_cons|].
      rewrite IHcalls. subst w1. cbn [calls with_meals record_call map].
      by rewrite <- app_assoc.
    + intros Hnone. rewrite (IHok Hnone). subst w1.
      cbn [calls with_meals record_call map]. by rewrite <- app_assoc.
Qed.

(** The calls of a run are the upserts of the first [a] records with a
    key: every one of them but the last went through, and the run returns
    an error exactly when the last of them failed, with its error. *)
Lemma import_attempts (n : nat) (raw : list (gmap string value)) (w : world) :
  let r := import_records Sprint s env n raw w in
  exists a,
    a <= upserts raw /\
    calls (fst r)
    = calls w ++ map MongoUpdateOne
                   (take a (map natural_key (List.filter keyed raw))) /\
    (forall i, S i < a -> update_err_at env (n + i) = None) /\
    (snd r = None ->
     a = upserts raw /\ forall i, i < a -> update_err_at env (n + i) = None) /\
    (forall e, snd r = Some e ->
     exists i, a = S i /\ update_err_at env (n + i) = Some e).
Proof.
  cbn zeta. unfold upserts. revert raw n w.
  apply (import_records_ind (fun n raw w r =>
    exists a,
      a <= length (List.filter keyed raw) /\
      calls (fst r)
      = calls w ++ map MongoUpdateOne
                     (take a (map natural_key (List.filter keyed raw))) /\
      (forall i, S i < a -> update_err_at env (n + i) = None) /\
      (snd r = None ->
       a = length (List.filter keyed raw) /\
       forall i, i < a -> update_err_at env (n + i) = None) /\
      (forall e, snd r = Some e ->
       exists i, a = S i /\ update_err_at env (n + i) = Some e))).
  - intros n w. exists 0. cbn [List.filter length map take fst snd].
    split; [lia|]. split; [by rewrite app_nil_r|].
    split; [intros i Hi; lia|]. split; [|done].
    intros _. split; [done | intros i Hi; lia].
  - intros n m raw w Hk IH. cbn [List.filter]. by rewrite Hk.
  - intros n m raw w err Hk Herr. cbn [List.filter]. rewrite Hk. cbn [fst snd].
    destruct (logw_fields (log s)
                (Entry ErrorLevel "failed to upsert meal"
                   [("id", FString (natural_key m)); ("error", FError err)])
                (record_call (MongoUpdateOne (natural_key m)) w))
      as (_ & _ & ->).
    exists 1. cbn [length map take]. split; [lia|]. split; [done|].
    split; [intros i Hi; lia|]. split; [done|].
    intros e [= <-]. exists 0. split; [done|]. by rewrite Nat.add_0_r.
  - intros n m raw w Hk Herr w1 (a & Hle & Hcalls & Hbefore & Hnone & Hsome).
    cbn [List.filter]. rewrite Hk. exists (S a). cbn [length map take].
    split; [lia|]. split.
    { rewrite Hcalls. subst w1. cbn [calls with_meals record_call map].
      by rewrite <- app_assoc. }
    split.
    { intros [|i] Hi; [by rewrite Nat.add_0_r|].
      rewrite Nat.add_succ_r. apply (Hbefore i). lia. }
    split.
    { intros Hn. destruct (Hnone Hn) as [-> Hall]. split; [done|].
      intros [|i] Hi; [by rewrite Nat.add_0_r|].
      rewrite Nat.add_succ_r. apply (Hall i). lia. }
    intros e He. destruct (Hsome e He) as (i & -> & Hi).
    exists (S i). split; [done|]. by rewrite Nat.add_succ_r.
Qed.

(** X4.  An import run makes no call to Redis and leaves the cache as it is:
    its calls are [UpdateOne] calls, one for each record with a key in
    input order, up to and including the first that fails.  That is: the
    calls are the upserts of the first [a] records with a key; each of
    them but the last went through; when the run returns no error they are
    all the records with a key and none failed; when it returns an error,
    the last call made is the one that failed, with that error. *)
Theorem import_calls_and_cache (n : nat) (raw : list (gmap string value))
    (w : world) :
  let r := import_records Sprint s env n raw w in
  cache (fst r) = cache w /\
  (exists ids, ids `prefix_of` map natural_key (List.filter keyed raw) /\
               calls (fst r) = calls w ++ map MongoUpdateOne ids) /\
  (snd r = None ->
   calls (fst r)
   = calls w ++ map MongoUpdateOne (map natural_key (List.filter keyed raw))) /\
  (exists a,
    a <= upserts raw /\
    calls (fst r)
    = calls w ++ map MongoUpdateOne
                   (take a (map natural_key (List.filter keyed raw))) /\
    (forall i, S i < a -> update_err_at env (n + i) = None) /\
    (snd r = None ->
     a = upserts raw /\ forall i, i < a -> update_err_at env (n + i) = None) /\
    (forall e, snd r = Some e ->
     exists i, a = S i /\ update_err_at env (n + i) = Some e)).
Proof.
  cbn zeta. pose proof (import_trace n raw w) as (H1 & H2 & H3).
  split; [exact H1|]. split; [exact H2|]. split; [exact H3|].
  apply import_attempts.
Qed.

(** X5.  An import run returns no error exactly when none of the upserts it
    has to make fails. *)
Theorem import_succeeds_iff (n : nat) (raw : list (gmap string value))
    (w : world) :
  snd (import_records Sprint s env n raw w) = None <->
  forall i, i < upserts raw -> update_err_at env (n + i) = None.
Proof.
  revert raw n w.
  apply (import_records_ind (fun n raw w r =>
    snd r = None <->
    forall i, i < upserts raw -> update_err_at env (n + i) = None)).
  - intros n w. split; [|done]. unfold upserts. simpl. lia.
  - intros n m raw w Hk IH. unfold upserts in *. cbn [List.filter].
    by rewrite Hk.
  - intros n m raw w err Hk Herr. unfold upserts. cbn [List.filter].
    rewrite Hk. cbn [snd length]. split; [done|].
    intros H. specialize (H 0). rewrite Nat.add_0_r, Herr in H.
    discriminate H. lia.
  - intros n m raw w Hk Herr w1 IH. unfold upserts in *. cbn [List.filter].
    rewrite Hk. cbn [length]. rewrite IH. split.
    + intros H [|i] Hi; [by rewrite Nat.add_0_r|].
      rewrite Nat.add_succ_r. apply (H i). lia.
    + intros H i Hi. specialize (H (S i)). rewrite Nat.add_succ_r in H.
      apply H. lia.
Qed.

Lemma import_monotone (n : nat) (raw : list (gmap string value))
    (w : world) (k : string) :
  let r := import_records Sprint s env n raw w in
  (is_Some (find_id k (meals w)) -> is_Some (find_id k (meals (fst r)))) /\
  length (docs (meals w)) <= length (docs (meals (fst r))).
Proof.
  cbn zeta. revert raw n w.
  apply (import_records_ind (fun n raw w r =>
    (is_Some (find_id k (meals w)) -> is_Some (find_id k (meals (fst r)))) /\
    length (docs (meals w)) <= length (docs (meals (fst r))))).
  - done.
  - done.
  - intros n m raw w err _ _. cbn [fst].
    destruct (logw_fields (log s)
                (Entry ErrorLevel "failed to upsert meal"
                   [("id", FString (natural_key m)); ("error", FError err)])
                (record_call (MongoUpdateOne (natural_key m)) w))
      as (-> & _ & _).
    done.
  - intros n m raw w Hk Herr w1 [IHf IHl].
    assert (Hdoc : meal_doc Sprint m (natural_key m) (build_ingredients Sprint m)
                     (now_at env n) !! "idMeal" = Some (VString (natural_key m)))
      by apply meal_doc_id.
    split.
    + intros Hsome. apply IHf. subst w1. cbn [meals with_meals].
      by apply find_upsert_is_Some.
    + etrans; [|exact IHl]. subst w1. cbn [meals with_meals record_call].
      unfold upsert.
      destruct (set_first _ _ (docs (meals w))) as [ds'|] eqn:Hs; cbn [docs].
      * by rewrite (set_first_length _ _ _ _ Hs).
      * rewrite length_app. lia.
Qed.

(** X6.  An import run never deletes: a key found before the run is found
    after it, and the collection does not shrink, whatever fails. *)
Theorem import_never_deletes (n : nat) (raw : list (gmap string value))
    (w : world) (k : string) :
  let r := import_records Sprint s env n raw w in
  (is_Some (find_id k (meals w)) -> is_Some (find_id k (meals (fst r)))) /\
  length (docs (meals w)) <= length (docs (meals (fst r))).
Proof. apply import_monotone. Qed.

(** X7.  A key that no record of the input has is left alone: the document
    found under it after the run is the one found before, whatever
    fails. *)
Theorem import_other_keys (n : nat) (raw : list (gmap string value))
    (w : world) (k : string) :
  last_record k raw = None ->
  find_id k (meals (fst (import_records Sprint s env n raw w)))
  = find_id k (meals w).
Proof.
  revert raw n w.
  apply (import_records_ind (fun n raw w r =>
    last_record k raw = None -> find_id k (meals (fst r)) = find_id k (meals w))).
  - done.
  - intros n m raw w Hk IH. cbn [last_record]. rewrite Hk.
    destruct (last_record k raw); [done|]. by intros _; apply IH.
  - intros n m raw w err _ _ _. cbn [fst].
    by destruct (logw_fields (log s)
                   (Entry ErrorLevel "failed to upsert meal"
                      [("id", FString (natural_key m)); ("error", FError err)])
                   (record_call (MongoUpdateOne (natural_key m)) w))
      as (-> & _ & _).
  - intros n m raw w Hk Herr w1 IH. cbn [last_record]. rewrite Hk.
    destruct (last_record k raw); [done|]. cbn [andb].
    destruct (String.eqb_spec (natural_key m) k) as [|Hne]; [done|].
    intros _. rewrite IH by done. subst w1. cbn [meals with_meals].
    apply find_upsert_other; [apply meal_doc_id | congruence].
Qed.

(** The import keeps every cache entry backed by a stored document,
    whatever fails. *)
Lemma import_keeps_cache_backed (n : nat) (raw : list (gmap string value))
    (w : world) :
  cache_backed w -> cache_backed (fst (import_records Sprint s env n raw w)).
Proof.
  intros Hback id b e Hc.
  destruct (import_trace n raw w) as [Hcache _].
  rewrite Hcache in Hc. apply import_monotone. by apply (Hback id b e).
Qed.

End Runs.

End StoreMore.

(** ** More on the lookup and the construction *)

Module LookupMore.
Import GoStrings Values World Store Properties CollectionFacts ImportFacts
  Idempotence CacheAside StoreMore.

Section Lookup.
Variable Sprint : value -> string.
Variable json_Marshal : gmap string value -> option string.
Variable json_Unmarshal : string -> option (option (gmap string value)).

Abbreviation Get := (GetMealByID json_Marshal json_Unmarshal).

Lemma try_cache_no_entry (s : Store) (env : GetEnv) (key : string) (w : world) :
  cache w !! key = None ->
  snd (try_cache json_Unmarshal s env key w) = None.
Proof.
  intros Hc. unfold try_cache, redisGet. destruct (rdb s); [|done].
  destruct (get_err env); [done|]. cbn [record_call cache]. by rewrite Hc.
Qed.

Lemma try_cache_hit (s : Store) (client : RedisClient) (env : GetEnv)
    (key b : string) (expiry : Z) (w : world) :
  rdb s = Some client -> get_err env = None ->
  cache w !! key = Some (b, expiry) -> (now env < expiry)%Z ->
  try_cache json_Unmarshal s env key w
  = (record_call (RedisGet key) w, json_Unmarshal b).
Proof.
  intros Hr Hg Hc Hnow%Z.ltb_lt. unfold try_cache, redisGet.
  rewrite Hr, Hg. cbn [record_call cache]. by rewrite Hc, Hnow.
Qed.

(** X8.  The import does not invalidate the cache: while an entry lives, a
    lookup after any import run still returns the cached document, with
    the cache read as its only call, whatever the run has stored. *)
Theorem Get_stale_after_import (s : Store) (client : RedisClient)
    (ienv : ImportEnv) (n : nat) (raw : list (gmap string value))
    (genv : GetEnv) (id b : string) (expiry : Z) (w : world)
    (out : option (gmap string value)) :
  rdb s = Some client ->
  cache w !! ("meal:" +:+ id) = Some (b, expiry) ->
  (now genv < expiry)%Z ->
  get_err genv = None ->
  json_Unmarshal b = Some out ->
  let w' := fst (import_records Sprint s ienv n raw w) in
  Get s genv id w' = (record_call (RedisGet ("meal:" +:+ id)) w', (out, None)).
Proof.
  intros Hr Hc Hnow Hg Hdec w'.
  assert (Hc' : cache w' !! ("meal:" +:+ id) = Some (b, expiry)).
  { unfold w'. by rewrite (proj1 (import_trace Sprint s ienv n raw w)). }
  unfold GetMealByID.
  rewrite (try_cache_hit s client genv _ b expiry w') by done.
  by rewrite Hdec.
Qed.

(** The string fields of the prepared document. *)
Lemma meal_doc_str_fields (m : gmap string value) (id : string)
    (ingredients : list value) (t : Time) (f : string) :
  f ∈ str_fields ->
  meal_doc Sprint m id ingredients t !! f
  = Some (VString (mustString Sprint (index m f))).
Proof.
  unfold str_fields. rewrite !elem_of_cons, elem_of_nil.
  intros [->|[->|[->|[->|[->|[->|[]]]]]]]; unfold meal_doc.
  - do 1 (rewrite lookup_insert_ne by done). apply lookup_insert_eq.
  - do 2 (rewrite lookup_insert_ne by done). apply lookup_insert_eq.
  - do 3 (rewrite lookup_insert_ne by done). apply lookup_insert_eq.
  - do 4 (rewrite lookup_insert_ne by done). apply lookup_insert_eq.
  - do 5 (rewrite lookup_insert_ne by done). apply lookup_insert_eq.
  - do 6 (rewrite lookup_insert_ne by done). apply lookup_insert_eq.
Qed.

(** X9.  Import, then look up: after a run without failure, a lookup of the
    key of a record of the input that neither finds a cache entry nor
    fails on the primary store returns the document stored under the key;
    its idMeal is the key, and its six string fields strMeal, strCategory,
    strArea, strInstructions, strMealThumb and strYoutube are those of the
    last record with this key, each as the string [mustString] makes of
    it. *)
Theorem import_then_Get (s : Store) (ienv : ImportEnv)
    (raw : list (gmap string value)) (genv : GetEnv) (k : string) (w : world)
    (m : gmap string value) :
  (forall i, update_err_at ienv i = None) ->
  last_record k raw = Some m ->
  cache w !! ("meal:" +:+ k) = None ->
  find_err genv = None ->
  let w' := fst (import_records Sprint s ienv 0 raw w) in
  exists d,
    snd (Get s genv k w') = (Some d, None) /\
    find_id k (meals w') = Some d /\
    d !! "idMeal" = Some (VString k) /\
    forall f, f ∈ str_fields ->
      d !! f = Some (VString (mustString Sprint (index m f))).
Proof.
  intros Hnf Hlast Hc Hfind w'.
  pose proof (import_find Sprint s ienv Hnf k raw 0 w) as H.
  rewrite Hlast in H. destruct H as (j & base & Hf & _). fold w' in Hf.
  exists (meal_doc Sprint m k (build_ingredients Sprint m) (now_at ienv j) ∪ base).
  split; [|split; [exact Hf|split]].
  - rewrite (Get_after_miss json_Marshal json_Unmarshal s genv k w'
               (fst (try_cache json_Unmarshal s genv ("meal:" +:+ k) w'))).
    + unfold primary_outcome. by rewrite Hfind, Hf.
    + assert (Hmiss : snd (try_cache json_Unmarshal s genv ("meal:" +:+ k) w') = None).
      { apply try_cache_no_entry. unfold w'.
        by rewrite (proj1 (import_trace Sprint s ienv 0 raw w)). }
      destruct (try_cache json_Unmarshal s genv ("meal:" +:+ k) w') as [w1 o].
      cbn [snd] in Hmiss. by rewrite Hmiss.
    + apply try_cache_meals.
  - apply lookup_union_Some_l, meal_doc_id.
  - intros f Hfld. by apply lookup_union_Some_l, meal_doc_str_fields.
Qed.

(** X10.  A lookup only reads the primary store and does not log; the only
    cache entry it may write is the one of the key looked up. *)
Theorem Get_read_only (s : Store) (env : GetEnv) (id : string) (w : world) :
  let w' := fst (Get s env id w) in
  meals w' = meals w /\ logs w' = logs w /\
  forall key, key <> "meal:" +:+ id -> cache w' !! key = cache w !! key.
Proof.
  cbn zeta. unfold GetMealByID.
  destruct (try_cache json_Unmarshal s env ("meal:" +:+ id) w) as [w1 o] eqn:Htc.
  assert (Hw1 : meals w1 = meals w /\ logs w1 = logs w /\ cache w1 = cache w).
  { revert Htc. unfold try_cache, redisGet. destruct (rdb s); [|by intros [= <- _]].
    destruct (get_err env); [by intros [= <- _]|]. cbn [record_call cache].
    destruct (cache w !! _) as [[b e]|]; [|by intros [= <- _]].
    destruct (now env <? e)%Z; by intros [= <- _]. }
  destruct Hw1 as (Hm & Hl & Hc).
  destruct o as [out|]; [by rewrite <- Hc|].
  unfold FindOne. destruct (find_err env) as [err|].
  { destruct (error_eqb err ErrNoDocuments); by rewrite <- Hc. }
  cbn [record_call meals].
  destruct (find_id id (meals w1)) as [d|]; [|by rewrite <- Hc].
  cbn [fst]. unfold fill_cache, redisSet.
  destruct (rdb s); [|by rewrite <- Hc]. destruct (json_Marshal d); [|by rewrite <- Hc].
  destruct (set_err env); [by rewrite <- Hc|].
  cbn [fst with_cache record_call cache meals logs].
  split; [done|]. split; [done|].
  intros key Hkey. rewrite lookup_insert_ne by done. by rewrite Hc.
Qed.

(** X11.  The invariant of the two stores: in the empty world, and after any
    lookup or import run from a world that has it, every cache entry
    "meal:<id>" stands for a document of the collection. *)
Theorem cache_backed_invariant :
  cache_backed world0 /\
  (forall s env id w, cache_backed w -> cache_backed (fst (Get s env id w))) /\
  (forall s env n raw w,
     cache_backed w ->
     cache_backed (fst (import_records Sprint s env n raw w))).
Proof.
  split; [|split].
  - intros id b e H. unfold world0 in H. cbn [cache] in H.
    by rewrite lookup_empty in H.
  - intros. by apply Get_keeps_cache_backed.
  - intros. by apply import_keeps_cache_backed.
Qed.

End Lookup.

(** X12.  [New] returns an error exactly when the connection to MongoDB or its
    ping fails, and a store otherwise; the store has a Redis client
    exactly when an address is configured and the ping to it succeeds;
    the construction touches neither the collection nor the cache. *)
Theorem New_outcomes (env : StartEnv) (mongoURI dbName redisAddr : string)
    (sugar : option SugaredLogger) (w : world) :
  let r := New env mongoURI dbName redisAddr sugar w in
  (snd (snd r) = None <-> mongo_connect env = None /\ mongo_ping env = None) /\
  (fst (snd r) = None <-> snd (snd r) <> None) /\
  (forall st, fst (snd r) = Some st ->
     db st = dbName /\ log st = sugar /\
     (rdb st <> None <-> redisAddr <> "" /\ redis_ping env = None)) /\
  meals (fst r) = meals w /\ cache (fst r) = cache w /\ calls (fst r) = calls w.
Proof.
  cbn zeta. unfold New.
  destruct (mongo_connect env) as [e1|]; [|destruct (mongo_ping env) as [e2|]].
  1, 2: destruct sugar; cbn [fst snd logw write_log meals cache calls];
    intuition (try discriminate; try congruence).
  destruct (String.eqb_spec redisAddr "") as [Ha|Ha];
    [|destruct (redis_ping env) as [e3|]; [destruct sugar|]];
    cbn [fst snd logw write_log meals cache calls];
    intuition (simplify_eq; cbn [db rdb log] in *; try discriminate; try congruence).
Qed.

End LookupMore.

(** ** More on the matcher and the measure parser *)

Module MatcherMore.
Import GoStrings Regexp Recipes Properties MatcherNotions StringFacts RegexpFacts.

Lemma append_cons (x : ascii) (a b : string) :
  String x a +:+ b = String x (a +:+ b).
Proof. reflexivity. Qed.

Lemma length_append (a b : string) :
  String.length (a +:+ b) = String.length a + String.length b.
Proof.
  induction a as [|c a IH]; [done|].
  rewrite append_cons. cbn [String.length]. by rewrite IH.
Qed.

Lemma append_assoc (a b c : string) : (a +:+ b) +:+ c = a +:+ (b +:+ c).
Proof.
  induction a as [|x a IH]; [done|]. rewrite !append_cons. by rewrite IH.
Qed.

Lemma append_nil_r (a : string) : a +:+ "" = a.
Proof.
  induction a as [|x a IH]; [done|]. rewrite append_cons. by rewrite IH.
Qed.

Lemma substring_all (a : string) : String.substring 0 (String.length a) a = a.
Proof.
  induction a as [|x a IH]; [done|]. cbn [String.length String.substring].
  by rewrite IH.
Qed.

Lemma substring_head (a b : string) :
  String.substring 0 (String.length a) (a +:+ b) = a.
Proof.
  induction a as [|x a IH]; [by destruct b|].
  rewrite append_cons. cbn [String.length String.substring]. by rewrite IH.
Qed.

Lemma substring_skip (a b : string) (n : nat) :
  String.substring (String.length a) n (a +:+ b) = String.substring 0 n b.
Proof.
  induction a as [|x a IH]; [done|].
  rewrite append_cons. cbn [String.length String.substring]. exact IH.
Qed.

(** The greedy iteration of a class over [a +:+ b], where [a] is in the
    class and [b] does not go on with it, tries every prefix of [a], the
    longest first. *)
Lemma run_Char_in (p : ascii -> bool) (c : ascii) (s' : string) (off : nat)
    (cs : list (nat * (nat * nat))) :
  p c = true ->
  run (Char p) (MState off (String c s') cs) = [MState (S off) s' cs].
Proof. intros H. cbn [run Regexp.rest]. by rewrite H. Qed.

Lemma run_Char_out (p : ascii -> bool) (st : mstate) :
  head_not p (rest st) -> run (Char p) st = [].
Proof.
  intros H. cbn [run]. destruct (rest st) as [|c s']; [done|].
  cbn in H. by rewrite H.
Qed.

Lemma star_class (p : ascii -> bool) (a b : string) :
  forall (fuel off : nat) (cs : list (nat * (nat * nat))),
    all_bytes p a = true -> head_not p b ->
    String.length a <= fuel ->
    star (run (Char p)) fuel (MState off (a +:+ b) cs)
    = states_desc a b off cs.
Proof.
  induction a as [|c a IH]; intros fuel off cs Ha Hb Hfuel.
  - cbn [states_desc]. change ("" +:+ b) with b.
    destruct fuel as [|fuel]; [done|]. cbn [star].
    by rewrite run_Char_out.
  - cbn [all_bytes] in Ha. apply andb_true_iff in Ha as [Hc Ha].
    destruct fuel as [|fuel]; [cbn in Hfuel; lia|].
    rewrite append_cons. cbn [star states_desc].
    rewrite run_Char_in by done. cbn [flat_map Regexp.rest String.length].
    destruct (Nat.ltb_spec (String.length (a +:+ b)) (S (String.length (a +:+ b))));
      [|lia].
    rewrite app_nil_r, append_cons.
    rewrite IH; [done | done | done | cbn in Hfuel; lia].
Qed.

Lemma run_Star_class (p : ascii -> bool) (a b : string) (off : nat)
    (cs : list (nat * (nat * nat))) :
  all_bytes p a = true -> head_not p b ->
  run (Star (Char p)) (MState off (a +:+ b) cs) = states_desc a b off cs.
Proof.
  intros Ha Hb.
  change (run (Star (Char p)) ?st)
    with (star (run (Char p)) (String.length (rest st)) st).
  cbn [Regexp.rest]. apply star_class; [done | done |].
  rewrite length_append. lia.
Qed.

Lemma run_Plus_class (p : ascii -> bool) (c : ascii) (a b : string) (off : nat)
    (cs : list (nat * (nat * nat))) :
  all_bytes p (String c a) = true -> head_not p b ->
  run (Plus (Char p)) (MState off (String c a +:+ b) cs)
  = states_desc a b (S off) cs.
Proof.
  intros Ha Hb. cbn [all_bytes] in Ha. apply andb_true_iff in Ha as [Hc Ha].
  rewrite append_cons.
  change (run (Plus (Char p)) ?st)
    with (flat_map (fun st' => star (run (Char p)) (String.length (rest st')) st')
            (run (Char p) st)).
  rewrite run_Char_in by done. cbn [flat_map Regexp.rest].
  rewrite app_nil_r. apply star_class; [done | done |].
  rewrite length_append. lia.
Qed.

Lemma run_Plus_nil (p : ascii -> bool) (st : mstate) :
  head_not p (rest st) -> run (Plus (Char p)) st = [].
Proof.
  intros H.
  change (run (Plus (Char p)) st)
    with (flat_map (fun st' => star (run (Char p)) (String.length (rest st')) st')
            (run (Char p) st)).
  by rewrite run_Char_out.
Qed.

(** The first state tried has read all of [a]. *)
Lemma states_desc_head (a b : string) (off : nat)
    (cs : list (nat * (nat * nat))) :
  exists tl,
    states_desc a b off cs = MState (off + String.length a) b cs :: tl.
Proof.
  revert off; induction a as [|c a IH]; intros off; cbn [states_desc String.length].
  - exists []. by rewrite Nat.add_0_r.
  - destruct (IH (S off)) as [tl ->]. eexists.
    by rewrite Nat.add_succ_r.
Qed.

(** Every state tried is at a suffix of [a] followed by [b]. *)
Lemma states_desc_elem (p : ascii -> bool) (a b : string) (off : nat)
    (cs : list (nat * (nat * nat))) (st : mstate) :
  all_bytes p a = true -> st ∈ states_desc a b off cs ->
  exists a2, rest st = a2 +:+ b /\ all_bytes p a2 = true.
Proof.
  revert off; induction a as [|c a IH]; intros off Ha; cbn [states_desc].
  - intros ->%list_elem_of_singleton. by exists "".
  - intros [Hin | ->%list_elem_of_singleton]%elem_of_app.
    + cbn [all_bytes] in Ha. apply andb_true_iff in Ha as [_ Ha].
      by apply (IH (S off)).
    + by exists (String c a).
Qed.

Lemma flat_map_nil {A B} (f : A -> list B) (l : list A) :
  (forall x, x ∈ l -> f x = []) -> flat_map f l = [].
Proof.
  induction l as [|x l IH]; intros H; [done|]. cbn [flat_map].
  rewrite (H x) by by left. apply IH. intros y Hy. apply H. by right.
Qed.

Lemma flat_map_head {A B} (f : A -> list B) (x : A) (l : list A) (y : B)
    (t : list B) :
  f x = y :: t -> exists t', flat_map f (x :: l) = y :: t'.
Proof. intros H. cbn [flat_map]. rewrite H. by eexists. Qed.

Lemma head_flat_map {A B} (f : A -> list B) (l : list A) (x : A) (y : B) :
  head l = Some x -> head (f x) = Some y -> head (flat_map f l) = Some y.
Proof.
  destruct l as [|x' l]; [done|]. intros [= ->] Hy. cbn [flat_map].
  destruct (f x) as [|y' t]; [done|]. exact Hy.
Qed.

Lemma head_states_desc (a b : string) (off : nat) (cs : list (nat * (nat * nat))) :
  head (states_desc a b off cs) = Some (MState (off + String.length a) b cs).
Proof. by destruct (states_desc_head a b off cs) as [tl ->]. Qed.

Lemma space_not_digit (c : ascii) : is_space c = true -> is_digit c = false.
Proof.
  unfold is_space, is_digit. rewrite !orb_true_iff, !N.eqb_eq. intros H.
  apply andb_false_iff. rewrite !N.leb_gt. lia.
Qed.

Lemma digit_not_space (c : ascii) : is_digit c = true -> is_space c = false.
Proof.
  intros H. destruct (is_space c) eqn:E; [|done].
  apply space_not_digit in E. congruence.
Qed.

(** [[0-9]+] in front of digits [ds] followed by something else: the
    preferred match reads all of [ds]. *)
Lemma head_run_digits (d : ascii) (ds b : string) (off : nat)
    (cs : list (nat * (nat * nat))) :
  all_bytes is_digit (String d ds) = true -> head_not is_digit b ->
  head (run digits (MState off (String d ds +:+ b) cs))
  = Some (MState (off + String.length (String d ds)) b cs).
Proof.
  intros Ha Hb. unfold digits. rewrite run_Plus_class by done.
  rewrite head_states_desc. cbn [String.length]. by rewrite Nat.add_succ_r.
Qed.

(** After the quantity: the blanks [sp], then the remainder [tail] up to
    the end of the text, which has no line feed. *)
Lemma head_run_rest (sp tail : string) (off : nat)
    (cs : list (nat * (nat * nat))) :
  all_bytes is_space sp = true -> head_not is_space tail ->
  all_bytes any_char tail = true ->
  head (run (Seq (Star (Char is_space))
               (Seq (Group 2 (Star (Char any_char))) Eol))
          (MState off (sp +:+ tail) cs))
  = Some (MState (off + String.length sp + String.length tail) ""
            ((2, (off + String.length sp,
                  off + String.length sp + String.length tail)) :: cs)).
Proof.
  intros Hsp Hhead Htail. rewrite run_Seq.
  apply (head_flat_map _ _ (MState (off + String.length sp) tail cs)).
  { rewrite run_Star_class by done. apply head_states_desc. }
  rewrite run_Seq, run_Group. cbn [Regexp.pos].
  apply (head_flat_map _ _
           (close 2 (off + String.length sp)
              (MState (off + String.length sp + String.length tail) "" cs))).
  - rewrite <- (append_nil_r tail) at 1.
    rewrite run_Star_class by done.
    destruct (states_desc_head tail "" (off + String.length sp) cs) as [tl ->].
    reflexivity.
  - reflexivity.
Qed.

(** From the preferred match of the quantity group to the result of
    [FindStringSubmatch]. *)
Lemma FindStringSubmatch_parts (q sp tail : string) :
  head (run (Alt alt_mixed (Alt alt_fraction alt_decimal))
          (MState 0 (q +:+ (sp +:+ tail)) []))
  = Some (MState (String.length q) (sp +:+ tail) []) ->
  all_bytes is_space sp = true -> head_not is_space tail ->
  all_bytes any_char tail = true ->
  FindStringSubmatch measure_re 2 (q +:+ (sp +:+ tail))
  = [q +:+ (sp +:+ tail); q; tail].
Proof.
  intros Hq Hsp Hhead Htail.
  set (text := q +:+ (sp +:+ tail)).
  set (final := MState (String.length q + String.length sp + String.length tail) ""
                  [(2, (String.length q + String.length sp,
                        String.length q + String.length sp + String.length tail));
                   (1, (0, String.length q))]).
  assert (Hrun : head (run measure_re (MState 0 text [])) = Some final).
  { unfold measure_re. rewrite run_Seq.
    change (run Bol (MState 0 text [])) with [MState 0 text []].
    cbn [flat_map]. rewrite app_nil_r, run_Seq, run_Group. cbn [Regexp.pos].
    apply (head_flat_map _ _
             (close 1 0 (MState (String.length q) (sp +:+ tail) []))).
    - fold text in Hq. destruct (run (Alt _ _) _) as [|x l]; [done|].
      injection Hq as ->. reflexivity.
    - unfold close. cbn [Regexp.pos Regexp.rest Regexp.caps].
      by apply head_run_rest. }
  unfold FindStringSubmatch.
  assert (Hfind : find_from measure_re (String.length text) 0 text = Some (0, final)).
  { destruct (run measure_re (MState 0 text [])) as [|x l] eqn:E; [done|].
    injection Hrun as ->.
    destruct (String.length text); cbn [find_from]; by rewrite E. }
  rewrite Hfind. unfold final, submatch, slice.
  cbn [map seq Regexp.pos Regexp.caps lookup_cap Nat.eqb fst snd].
  rewrite !Nat.sub_0_r.
  assert (H1 : String.substring 0
                 (String.length q + String.length sp + String.length tail) text
               = text).
  { replace (String.length q + String.length sp + String.length tail)
      with (String.length text); [apply substring_all|].
    unfold text. rewrite !length_append. lia. }
  assert (H2 : String.substring 0 (String.length q) text = q)
    by apply substring_head.
  assert (H3 : String.substring (String.length q + String.length sp)
                 (String.length q + String.length sp + String.length tail
                  - (String.length q + String.length sp)) text
               = tail).
  { replace (String.length q + String.length sp + String.length tail
             - (String.length q + String.length sp))
      with (String.length tail) by lia.
    unfold text. rewrite <- append_assoc, <- length_append, substring_skip.
    apply substring_all. }
  by rewrite H1, H2, H3.
Qed.

(** The optional part of the first alternative finds nothing where, after
    blanks, something other than a digit comes. *)
Lemma run_fraction_part_nil (sp : string) (c : ascii) (tail : string) (off : nat)
    (cs : list (nat * (nat * nat))) :
  all_bytes is_space sp = true -> is_space c = false -> is_digit c = false ->
  run (Seq spaces1 fraction) (MState off (sp +:+ String c tail) cs) = [].
Proof.
  intros Hsp Hcs Hcd. rewrite run_Seq. apply flat_map_nil. intros st Hst.
  assert (Hd : head_not is_digit (rest st)).
  { unfold spaces1 in Hst. destruct sp as [|x sp'].
    - rewrite run_Plus_nil in Hst by done. by apply elem_of_nil in Hst.
    - rewrite run_Plus_class in Hst by done.
      apply (states_desc_elem is_space) in Hst as (a2 & -> & Ha2).
      + destruct a2 as [|y a2]; [exact Hcd|].
        cbn [all_bytes] in Ha2. apply andb_true_iff in Ha2 as [Hy _].
        by apply space_not_digit.
      + cbn [all_bytes] in Hsp. by apply andb_true_iff in Hsp as [_ ?]. }
  unfold fraction. rewrite run_Seq. unfold digits. by rewrite run_Plus_nil.
Qed.

Lemma run_Quest (r : regex) (st : mstate) :
  run (Quest r) st = run r st ++ [st].
Proof. reflexivity. Qed.

Lemma head_app_l {A} (l1 l2 : list A) (x : A) :
  head l1 = Some x -> head (l1 ++ l2) = Some x.
Proof. by destruct l1. Qed.

(** *** White space trimming leaves plain ends alone *)

Lemma find_prefix_plain (pats : list string) (c : ascii) (s : string) :
  forallb high_head pats = true -> plain_byte c = true ->
  List.find (HasPrefix (String c s)) pats = None.
Proof.
  intros Hp Hc. induction pats as [|p pats IH]; [done|].
  cbn [forallb] in Hp. apply andb_true_iff in Hp as [Hh Hp].
  cbn [List.find]. unfold HasPrefix at 1.
  destruct p as [|c0 p]; [done|]. cbn [String.prefix].
  destruct (Ascii.ascii_dec c0 c) as [->|_]; [|by apply IH].
  exfalso. unfold high_head in Hh. unfold plain_byte in Hc.
  apply andb_true_iff in Hc as [Hc _].
  apply N.leb_le in Hh. apply N.ltb_lt in Hc. lia.
Qed.

Lemma trim_left_plain (pats : list string) (fuel : nat) (s : string) :
  forallb high_head pats = true -> head_plain s ->
  trim_left pats fuel s = s.
Proof.
  intros Hp Hs. destruct fuel as [|fuel]; [done|]. cbn [trim_left].
  destruct s as [|c s]; [done|]. cbn in Hs. unfold space_width.
  assert (Ha : asciiSpace c = false).
  { unfold plain_byte in Hs. apply andb_true_iff in Hs as [_ Hs].
    by apply negb_true_iff in Hs. }
  by rewrite Ha, find_prefix_plain.
Qed.

Lemma rev_onto_spec (s a b : string) :
  rev_onto (rev_onto s a) b = rev_onto a (s +:+ b).
Proof.
  revert a b; induction s as [|c s IH]; intros a b; [done|].
  cbn [rev_onto]. rewrite IH. cbn [rev_onto]. by rewrite append_cons.
Qed.

Lemma rev_involutive (s : string) : rev (rev s) = s.
Proof. unfold rev. rewrite rev_onto_spec. cbn [rev_onto]. apply append_nil_r. Qed.

(** A string that starts and ends with plain bytes is its own trimmed
    form. *)
Lemma TrimSpace_plain (s : string) :
  head_plain s -> head_plain (rev s) -> TrimSpace s = s.
Proof.
  intros H1 H2. unfold TrimSpace, TrimLeftSpace, TrimRightSpace.
  rewrite (trim_left_plain unicode_space_utf8) by done.
  rewrite (trim_left_plain (map rev unicode_space_utf8)) by done.
  apply rev_involutive.
Qed.

Lemma digit_plain (c : ascii) : is_digit c = true -> plain_byte c = true.
Proof.
  unfold is_digit, plain_byte, asciiSpace. intros H.
  apply andb_true_iff in H as [H1%N.leb_le H2%N.leb_le].
  apply andb_true_iff. split; [apply N.ltb_lt; lia|].
  apply negb_true_iff, orb_false_iff. split.
  - apply andb_false_iff. right. apply N.leb_gt. lia.
  - apply N.eqb_neq. lia.
Qed.

Lemma all_bytes_rev_onto (p : ascii -> bool) (s a : string) :
  all_bytes p (rev_onto s a) = all_bytes p s && all_bytes p a.
Proof.
  revert a; induction s as [|c s IH]; intros a; [done|].
  cbn [rev_onto all_bytes]. rewrite IH. cbn [all_bytes].
  by destruct (p c), (all_bytes p s), (all_bytes p a).
Qed.

Lemma all_bytes_head (p : ascii -> bool) (s : string) (c : ascii) (s' : string) :
  all_bytes p s = true -> s = String c s' -> p c = true.
Proof. intros H ->. cbn in H. by apply andb_true_iff in H as [? _]. Qed.

Lemma TrimSpace_digits (s : string) :
  all_bytes is_digit s = true -> TrimSpace s = s.
Proof.
  intros H. apply TrimSpace_plain.
  - destruct s as [|c s']; [done|]. cbn.
    apply digit_plain, (all_bytes_head is_digit _ c s' H eq_refl).
  - assert (Hr : all_bytes is_digit (rev s) = true).
    { unfold rev. rewrite all_bytes_rev_onto, H. done. }
    destruct (rev s) as [|c s'] eqn:E; [done|]. cbn.
    apply digit_plain, (all_bytes_head is_digit _ c s' Hr eq_refl).
Qed.

(** The result of [parseMeasure] once the pattern's submatches are known. *)
Lemma parseMeasure_of_match (m whole q u : string) :
  TrimSpace m <> "" ->
  Contains (TrimSpace m) "(" = false ->
  Contains (ToLower (TrimSpace m)) " or " = false ->
  FindStringSubmatch measure_re 2 (TrimSpace m) = [whole; q; u] ->
  parseMeasure m
  = (Some (TrimSpace q),
     if String.eqb (TrimSpace u) "" then None else Some (TrimSpace u)).
Proof.
  intros Hne Hp Ho Hm. unfold parseMeasure.
  destruct (String.eqb_spec (TrimSpace m) ""); [done|].
  rewrite Hp, Ho, Hm. cbn [orb length Nat.eqb nth].
  by destruct (String.eqb (TrimSpace u) "").
Qed.

Lemma head_run_Plus (p : ascii -> bool) (c : ascii) (a b : string) (off : nat)
    (cs : list (nat * (nat * nat))) :
  all_bytes p (String c a) = true -> head_not p b ->
  head (run (Plus (Char p)) (MState off (String c a +:+ b) cs))
  = Some (MState (off + String.length (String c a)) b cs).
Proof.
  intros Ha Hb. rewrite run_Plus_class by done.
  rewrite head_states_desc. cbn [String.length]. by rewrite Nat.add_succ_r.
Qed.

Lemma plain_not_space (c : ascii) : plain_byte c = true -> is_space c = false.
Proof.
  unfold plain_byte, asciiSpace, is_space. intros H.
  apply andb_true_iff in H as [_ H]. apply negb_true_iff, orb_false_iff in H.
  destruct H as [H1 H2%N.eqb_neq]. apply andb_false_iff in H1.
  rewrite !orb_false_iff, !N.eqb_neq.
  destruct H1 as [H1%N.leb_gt | H1%N.leb_gt]; repeat split; lia.
Qed.

Lemma head_plain_not_space (s : string) : head_plain s -> head_not is_space s.
Proof. destruct s as [|c s]; [done|]. cbn. apply plain_not_space. Qed.

(** Digits, then blanks or nothing, then something that is neither a
    digit nor a blank: the first alternative takes the digits and gives
    up its optional part. *)
Lemma head_alt_digits_only (d : ascii) (ds sp : string) (c : ascii)
    (tail : string) :
  all_bytes is_digit (String d ds) = true ->
  all_bytes is_space sp = true ->
  is_space c = false -> is_digit c = false ->
  head (run (Alt alt_mixed (Alt alt_fraction alt_decimal))
          (MState 0 (String d ds +:+ (sp +:+ String c tail)) []))
  = Some (MState (String.length (String d ds)) (sp +:+ String c tail) []).
Proof.
  intros Hds Hsp Hcs Hcd. rewrite run_Alt. apply head_app_l.
  unfold alt_mixed. rewrite run_Seq.
  apply (head_flat_map _ _
           (MState (0 + String.length (String d ds)) (sp +:+ String c tail) [])).
  - apply head_run_digits; [done|].
    destruct sp as [|x sp]; [exact Hcd|]. cbn.
    cbn [all_bytes] in Hsp. apply andb_true_iff in Hsp as [Hx _].
    by apply space_not_digit.
  - by rewrite run_Quest, run_fraction_part_nil.
Qed.

(** Digits, blanks, digits, "/", digits: the first alternative takes the
    whole mixed number. *)
Lemma head_alt_mixed_number (d1 : ascii) (ds1 : string) (x : ascii) (sp1 : string)
    (d2 : ascii) (ds2 : string) (d3 : ascii) (ds3 rest0 : string) :
  all_bytes is_digit (String d1 ds1) = true ->
  all_bytes is_space (String x sp1) = true ->
  all_bytes is_digit (String d2 ds2) = true ->
  all_bytes is_digit (String d3 ds3) = true ->
  head_not is_digit rest0 ->
  head (run (Alt alt_mixed (Alt alt_fraction alt_decimal))
          (MState 0
             (String d1 ds1 +:+ (String x sp1 +:+ (String d2 ds2 +:+
                ("/" +:+ (String d3 ds3 +:+ rest0))))) []))
  = Some (MState
            (String.length (String d1 ds1) + String.length (String x sp1)
             + String.length (String d2 ds2) + 1 + String.length (String d3 ds3))
            rest0 []).
Proof.
  intros H1 Hs H2 H3 Hrest. rewrite run_Alt. apply head_app_l.
  unfold alt_mixed. rewrite run_Seq.
  eapply head_flat_map.
  { apply head_run_digits; [done|]. rewrite append_cons. cbn.
    cbn [all_bytes] in Hs. apply andb_true_iff in Hs as [Hx _].
    by apply space_not_digit. }
  rewrite run_Quest. apply head_app_l. rewrite run_Seq.
  eapply head_flat_map.
  { unfold spaces1. apply head_run_Plus; [done|]. rewrite append_cons. cbn.
    cbn [all_bytes] in H2. apply andb_true_iff in H2 as [Hd _].
    by apply digit_not_space. }
  unfold fraction. rewrite run_Seq.
  eapply head_flat_map.
  { apply head_run_digits; [done|]. reflexivity. }
  rewrite run_Seq.
  change ("/" +:+ (String d3 ds3 +:+ rest0))
    with (String "/" (String d3 ds3 +:+ rest0)).
  rewrite run_Char_in by reflexivity. cbn [flat_map]. rewrite app_nil_r.
  rewrite head_run_digits by done.
  do 2 f_equal. cbn [String.length]. lia.
Qed.

Lemma rev_onto_append (s acc : string) : rev_onto s acc = rev s +:+ acc.
Proof.
  unfold rev. revert acc; induction s as [|c s IH]; intros acc; [done|].
  cbn [rev_onto]. rewrite IH, (IH (String c "")), append_assoc. reflexivity.
Qed.

Lemma rev_append (a b : string) : rev (a +:+ b) = rev b +:+ rev a.
Proof.
  induction a as [|c a IH].
  - change ("" +:+ b) with b. by rewrite append_nil_r.
  - rewrite append_cons. unfold rev at 1 3. cbn [rev_onto].
    rewrite !(rev_onto_append _ (String c "")), IH. apply append_assoc.
Qed.

Lemma head_plain_append (a b : string) :
  a <> "" -> head_plain a -> head_plain (a +:+ b).
Proof. destruct a as [|c a]; [done|]. by rewrite append_cons. Qed.

Lemma rev_nonempty (c : ascii) (s : string) : rev (String c s) <> "".
Proof.
  unfold rev. cbn [rev_onto]. rewrite rev_onto_append.
  destruct (rev s); discriminate.
Qed.

Lemma head_plain_rev_digits (s : string) :
  all_bytes is_digit s = true -> head_plain (rev s).
Proof.
  intros H. assert (Hr : all_bytes is_digit (rev s) = true).
  { unfold rev. by rewrite all_bytes_rev_onto, H. }
  destruct (rev s) as [|c s'] eqn:E; [done|]. cbn.
  apply digit_plain, (all_bytes_head is_digit _ c s' Hr eq_refl).
Qed.

(** X1.  When the digits that open a measure are followed, directly or after
    blanks, by a byte that is neither a digit nor white space, the
    quantity is these digits and the unit is all the rest: a "/" or a "."
    right after the digits ends the quantity. *)
Theorem parseMeasure_leading_digits (m : string) (d : ascii) (ds sp : string)
    (c : ascii) (tail : string) :
  TrimSpace m = String d ds +:+ (sp +:+ String c tail) ->
  all_bytes is_digit (String d ds) = true ->
  all_bytes is_space sp = true ->
  is_digit c = false -> plain_byte c = true ->
  all_bytes any_char (String c tail) = true ->
  head_plain (rev (String c tail)) ->
  Contains (TrimSpace m) "(" = false ->
  Contains (ToLower (TrimSpace m)) " or " = false ->
  parseMeasure m = (Some (String d ds), Some (String c tail)).
Proof.
  intros Hm Hds Hsp Hcd Hcp Hany Hlast Hparen Hor.
  rewrite (parseMeasure_of_match m (TrimSpace m) (String d ds) (String c tail));
    try done.
  - rewrite (TrimSpace_digits _ Hds), (TrimSpace_plain (String c tail)) by done.
    reflexivity.
  - rewrite Hm. discriminate.
  - rewrite Hm. apply FindStringSubmatch_parts; try done.
    + apply head_alt_digits_only; try done. by apply plain_not_space.
    + cbn. by apply plain_not_space.
Qed.

(** X2.  A mixed number at the head of a measure is the quantity as a whole;
    what follows it, blanks skipped, is the unit, and there is no unit
    when nothing follows. *)
Theorem parseMeasure_mixed_number (m : string) (d1 : ascii) (ds1 : string)
    (x : ascii) (sp1 : string) (d2 : ascii) (ds2 : string) (d3 : ascii)
    (ds3 sp2 tail : string) :
  let q := String d1 ds1 +:+ (String x sp1 +:+ (String d2 ds2 +:+
             ("/" +:+ String d3 ds3))) in
  TrimSpace m = q +:+ (sp2 +:+ tail) ->
  all_bytes is_digit (String d1 ds1) = true ->
  all_bytes is_space (String x sp1) = true ->
  all_bytes is_digit (String d2 ds2) = true ->
  all_bytes is_digit (String d3 ds3) = true ->
  all_bytes is_space sp2 = true ->
  head_not is_digit (sp2 +:+ tail) ->
  head_plain tail -> head_plain (rev tail) ->
  all_bytes any_char tail = true ->
  Contains (TrimSpace m) "(" = false ->
  Contains (ToLower (TrimSpace m)) " or " = false ->
  parseMeasure m = (Some q, if String.eqb tail "" then None else Some tail).
Proof.
  intros q Hm H1 Hs1 H2 H3 Hs2 Hnd Htail Hlast Hany Hparen Hor.
  rewrite (parseMeasure_of_match m (TrimSpace m) q tail); try done.
  - rewrite (TrimSpace_plain tail) by done. f_equal. f_equal.
    apply TrimSpace_plain.
    + unfold q. rewrite append_cons. cbn.
      apply digit_plain, (all_bytes_head is_digit _ d1 ds1 H1 eq_refl).
    + unfold q. rewrite !rev_append, !append_assoc. apply head_plain_append.
      * apply rev_nonempty.
      * by apply head_plain_rev_digits.
  - rewrite Hm. unfold q. rewrite append_cons. discriminate.
  - rewrite Hm. apply FindStringSubmatch_parts; try done.
    + unfold q. rewrite !append_assoc.
      rewrite head_alt_mixed_number by done.
      do 2 f_equal. rewrite !length_append. cbn [String.length]. lia.
    + by apply head_plain_not_space.
Qed.

(** X3.  There is a quantity unless the trimmed input is empty; a unit is
    never the empty string and never comes without a quantity. *)
Theorem parseMeasure_shape (m : string) :
  (fst (parseMeasure m) = None <-> TrimSpace m = "") /\
  (forall u, snd (parseMeasure m) = Some u ->
     u <> "" /\ fst (parseMeasure m) <> None).
Proof.
  unfold parseMeasure.
  destruct (String.eqb_spec (TrimSpace m) "") as [He|Hne]; [done|].
  destruct (_ || _); [done|].
  destruct (Nat.eqb _ 3); [|done].
  destruct (String.eqb_spec (TrimSpace (nth 2 (FindStringSubmatch measure_re 2 (TrimSpace m)) "")) "")
    as [Hu|Hu]; [done|].
  cbn [fst snd]. split; [done|]. by intros u [= <-].
Qed.

Lemma parseMeasure_leading_digits_witness :
  parseMeasure " 3/4 cup " = (Some "3", Some "/4 cup") /\
  parseMeasure "12  pinches" = (Some "12", Some "pinches").
Proof.
  split.
  - apply (parseMeasure_leading_digits " 3/4 cup " "3" "" "" "/" "4 cup");
      reflexivity.
  - apply (parseMeasure_leading_digits "12  pinches" "1" "2" "  " "p" "inches");
      reflexivity.
Defined.

Lemma parseMeasure_mixed_number_witness :
  parseMeasure "2 3/4 cups" = (Some "2 3/4", Some "cups") /\
  parseMeasure "10  1/2" = (Some "10  1/2", None).
Proof.
  split.
  - apply (parseMeasure_mixed_number "2 3/4 cups" "2" "" " " "" "3" "" "4" "" " " "cups");
      reflexivity.
  - apply (parseMeasure_mixed_number "10  1/2" "1" "0" " " " " "1" "" "2" "" "" "");
      reflexivity.
Defined.

Lemma parseMeasure_shape_witness :
  fst (parseMeasure "  ") = None /\ fst (parseMeasure "1 cup") <> None.
Proof.
  split.
  - apply (proj1 (parseMeasure_shape "  ")). reflexivity.
  - apply (proj2 (parseMeasure_shape "1 cup") "cup"). reflexivity.
Defined.

End MatcherMore.

(** ** The index builder *)

Module BuildIndexFacts.
Import GoStrings Values World Store Properties BuildIndex.

Section Index.
Variable Sprint : value -> string.

Lemma toStr_toString (v : value) : toStr Sprint v = fst (toString Sprint v).
Proof. by destruct v. Qed.

Lemma gather_loop_spec (m : gmap string value) (left i : nat) (acc : list string) :
  gather_loop Sprint m left i acc
  = acc ++ map (name_slot Sprint m)
             (filter (fun i => name_slot Sprint m i <> "") (seq i left)).
Proof.
  revert i acc; induction left as [|left IH]; intros i acc.
  - simpl. by rewrite app_nil_r.
  - cbn [gather_loop seq]. rewrite IH, filter_cons.
    assert (Hn : name_slot Sprint m i
                 = match m !! ("strIngredient" +:+ itoa i) with
                   | Some v => toStr Sprint v
                   | None => ""
                   end).
    { unfold name_slot, index.
      destruct (m !! ("strIngredient" +:+ itoa i)); [|done].
      by rewrite toStr_toString. }
    destruct (m !! ("strIngredient" +:+ itoa i)) as [v|].
    + destruct (String.eqb_spec (toStr Sprint v) "") as [He|Hne].
      * rewrite decide_False by (rewrite Hn; intros H; by apply H).
        reflexivity.
      * rewrite decide_True by by rewrite Hn.
        cbn [map]. rewrite Hn, <- app_assoc. reflexivity.
    + rewrite decide_False by (rewrite Hn; intros H; by apply H).
      reflexivity.
Qed.

(** X13.  The index and the store agree on the ingredients of a record: the
    names the index lists are the names of the ingredient pairs the
    import stores, in the same order. *)
Theorem index_ingredients_agree (m : gmap string value) :
  Ingredients (index_item Sprint m)
  = map (name_slot Sprint m) (kept_slots Sprint m) /\
  length (Ingredients (index_item Sprint m))
  = length (build_ingredients Sprint m).
Proof.
  assert (H : Ingredients (index_item Sprint m)
              = map (name_slot Sprint m) (kept_slots Sprint m)).
  { cbn [index_item Ingredients]. by rewrite gather_loop_spec. }
  split; [exact H|]. rewrite H.
  unfold build_ingredients.
  rewrite ImportFacts.ingredients_loop_spec. cbn [app].
  by rewrite !length_map.
Qed.

Lemma items_loop_spec (raw : list (gmap string value)) (out : list IndexItem) :
  items_loop Sprint raw out = out ++ map (index_item Sprint) raw.
Proof.
  revert out; induction raw as [|m raw IH]; intros out; cbn [items_loop map].
  - by rewrite app_nil_r.
  - by rewrite IH, <- app_assoc.
Qed.

Lemma filter_split_length {A} (f : A -> bool) (l : list A) :
  length (List.filter f l) + length (List.filter (fun x => negb (f x)) l)
  = length l.
Proof.
  induction l as [|x l IH]; [done|]. cbn [List.filter].
  destruct (f x); cbn [negb length]; lia.
Qed.

(** X14.  The index has one item for every record of the input, in input
    order, also for the records the import skips: the number of items is
    the number of upserts of an import plus the number of records without
    a usable key. *)
Theorem index_covers_skipped (raw : list (gmap string value)) :
  items_loop Sprint raw [] = map (index_item Sprint) raw /\
  length (items_loop Sprint raw [])
  = upserts raw + length (List.filter (fun m => negb (keyed m)) raw).
Proof.
  split; [by rewrite items_loop_spec|].
  rewrite items_loop_spec. cbn [app]. rewrite length_map.
  unfold upserts. by rewrite filter_split_length.
Qed.

Variable json_Unmarshal_records : string -> error + list (gmap string value).
Variable json_MarshalIndent : list IndexItem -> error + string.

Abbreviation run_main :=
  (main Sprint json_Unmarshal_records json_MarshalIndent).

(** The run with --force, or without an output that is there. *)
Lemma main_build (env : IndexEnv) (inPath outPath : string) (force : bool)
    (fs : fsys) :
  force = true \/ os_Stat env outPath fs <> None ->
  run_main env inPath outPath force fs
  = match os_ReadFile env inPath fs with
    | inl err => (fs, 2, [FailedRead inPath err])
    | inr b =>
        match json_Unmarshal_records b with
        | inl err => (fs, 2, [FailedParse err])
        | inr raw =>
            match json_MarshalIndent (map (index_item Sprint) raw) with
            | inl err => (fs, 2, [FailedMarshal err])
            | inr ob =>
                match os_MkdirAll env "public" fs with
                | (fs1, Some err) => (fs1, 2, [FailedMkdir err])
                | (fs1, None) =>
                    match os_WriteFile env outPath ob fs1 with
                    | (fs2, Some err) => (fs2, 2, [FailedWrite outPath err])
                    | (fs2, None) => (fs2, 0, [Wrote (length raw) outPath])
                    end
                end
            end
        end
    end.
Proof.
  intros H. unfold main.
  assert (Hc : negb force
               && match os_Stat env outPath fs with
                  | None => true
                  | Some _ => false
                  end = false).
  { destruct H as [-> | H]; [done|].
    destruct (os_Stat env outPath fs); [|done]. by destruct force. }
  rewrite Hc.
  destruct (os_ReadFile env inPath fs) as [e|b]; [done|].
  destruct (json_Unmarshal_records b) as [e|raw]; [done|].
  rewrite items_loop_spec. cbn [app]. by rewrite length_map.
Qed.

Lemma os_MkdirAll_spec (env : IndexEnv) (path : string) (fs : fsys) :
  let r := os_MkdirAll env path fs in
  files (fst r) = files fs /\
  (fst r = fs \/
   snd r = None /\ mkdir_err env = None /\ dirs (fst r) = {[path]} ∪ dirs fs) /\
  (snd r = None -> mkdir_err env = None /\ dirs (fst r) = {[path]} ∪ dirs fs).
Proof.
  cbn zeta. unfold os_MkdirAll. destruct (mkdir_err env) as [e|].
  { cbn [fst snd]. split; [done|]. split; [by left | done]. }
  destruct (bool_decide_reflect (path ∈ dirs fs)) as [Hin|Hin].
  - cbn [fst snd]. split; [done|]. split; [by left|]. intros _. split; [done|].
    apply leibniz_equiv. intros x. rewrite elem_of_union, elem_of_singleton.
    split; [by right | by intros [->|?]].
  - destruct (files fs !! path); cbn [fst snd files dirs].
    + split; [done|]. split; [by left | done].
    + split; [done|]. split; [by right|]. done.
Qed.

Lemma os_WriteFile_spec (env : IndexEnv) (path data : string) (fs : fsys) :
  let r := os_WriteFile env path data fs in
  dirs (fst r) = dirs fs /\
  (forall p, p <> path -> files (fst r) !! p = files fs !! p) /\
  (snd r = None ->
   write_err env = None /\ files (fst r) = <[path := data]> (files fs)) /\
  (fst r = fs \/
   snd r = None /\ files (fst r) = <[path := data]> (files fs) \/
   exists n e, write_err env = Some (WriteFault n e) /\ snd r = Some e /\
     files (fst r) = <[path := String.substring 0 n data]> (files fs)).
Proof.
  cbn zeta. unfold os_WriteFile. destruct (write_err env) as [[e|n e]|].
  - cbn [fst snd]. split; [done|]. split; [done|]. split; [done|]. by left.
  - cbn [fst snd files dirs]. split; [done|].
    split; [by intros p Hp; rewrite lookup_insert_ne|]. split; [done|].
    right; right. by exists n, e.
  - destruct (bool_decide (path ∈ dirs fs)); cbn [fst snd files dirs].
    + split; [done|]. split; [done|]. split; [done|]. by left.
    + split; [done|]. split; [by intros p Hp; rewrite lookup_insert_ne|].
      split; [done|]. right; by left.
Qed.

(** X15.  The command changes the contents of no file but the output file,
    and may add the one directory public.  Without --force, an output path
    that is there is left as it is, nothing is changed and the status is
    0.  Whatever the run changes, it changes after the input has been
    read, parsed and the index serialized.  A run that ends with status 0
    and is not the early return has written the whole index to the output
    file, with the directory public there.  A run that ends
    with status 2 may have changed the output file: then the write failed
    after the open, and the file holds only the bytes of the index already
    written. *)
Theorem main_writes (env : IndexEnv) (inPath outPath : string) (force : bool)
    (fs : fsys) :
  let '(fs', status, msgs) := run_main env inPath outPath force fs in
  (forall p, p <> outPath -> files fs' !! p = files fs !! p) /\
  (dirs fs' = dirs fs \/ dirs fs' = {["public"]} ∪ dirs fs) /\
  (force = false -> stat_err env = None ->
   is_Some (files fs !! outPath) \/ outPath ∈ dirs fs ->
   fs' = fs /\ status = 0 /\ msgs = [AlreadyExists outPath]) /\
  (fs' <> fs ->
   exists b raw ob,
     os_ReadFile env inPath fs = inr b /\
     json_Unmarshal_records b = inr raw /\
     json_MarshalIndent (map (index_item Sprint) raw) = inr ob /\
     mkdir_err env = None) /\
  (status = 0 ->
   fs' = fs /\ msgs = [AlreadyExists outPath] /\ force = false \/
   exists b raw ob,
     os_ReadFile env inPath fs = inr b /\
     json_Unmarshal_records b = inr raw /\
     json_MarshalIndent (map (index_item Sprint) raw) = inr ob /\
     files fs' = <[outPath := ob]> (files fs) /\
     dirs fs' = {["public"]} ∪ dirs fs /\
     msgs = [Wrote (length raw) outPath]) /\
  (status = 2 -> files fs' <> files fs ->
   exists b raw ob n e,
     os_ReadFile env inPath fs = inr b /\
     json_Unmarshal_records b = inr raw /\
     json_MarshalIndent (map (index_item Sprint) raw) = inr ob /\
     write_err env = Some (WriteFault n e) /\
     files fs' = <[outPath := String.substring 0 n ob]> (files fs) /\
     msgs = [FailedWrite outPath e]).
Proof.
  assert (Hearly : force = false -> stat_err env = None ->
                   is_Some (files fs !! outPath) \/ outPath ∈ dirs fs ->
                   os_Stat env outPath fs = None).
  { intros _ Hs Hex. unfold os_Stat. rewrite Hs.
    destruct (files fs !! outPath) as [o|]; [done|].
    destruct Hex as [[? Hx]|Hin]; [done|]. by rewrite bool_decide_eq_true_2. }
  destruct (decide (force = true \/ os_Stat env outPath fs <> None)) as [Hb|Hb].
  2:{ assert (Hf : force = false) by (destruct force; [tauto | done]).
      assert (Hst : os_Stat env outPath fs = None).
      { destruct (os_Stat env outPath fs) eqn:E; [|done].
        exfalso. apply Hb. by right. }
      unfold main. rewrite Hf, Hst. cbn [negb andb].
      split; [done|]. split; [by left|]. split; [done|].
      split; [done|]. split; [by left|]. done. }
  rewrite (main_build env inPath outPath force fs Hb).
  assert (Hno : force = false -> stat_err env = None ->
                is_Some (files fs !! outPath) \/ outPath ∈ dirs fs -> False).
  { intros Hf Hs Hex. destruct Hb as [Hb|Hb]; [congruence|].
    apply Hb. by apply Hearly. }
  destruct (os_ReadFile env inPath fs) as [e|b] eqn:Hread.
  { split; [done|]. split; [by left|].
    split; [by intros ???; exfalso; eauto|]. split; [done|]. done. }
  destruct (json_Unmarshal_records b) as [e|raw] eqn:Hraw.
  { split; [done|]. split; [by left|].
    split; [by intros ???; exfalso; eauto|]. split; [done|]. done. }
  destruct (json_MarshalIndent (map (index_item Sprint) raw)) as [e|ob] eqn:Hob.
  { split; [done|]. split; [by left|].
    split; [by intros ???; exfalso; eauto|]. split; [done|]. done. }
  pose proof (os_MkdirAll_spec env "public" fs) as (Hmf & Hmd & Hmok).
  destruct (os_MkdirAll env "public" fs) as [fs1 [e|]] eqn:Hmk;
    cbn [fst snd] in Hmf, Hmd, Hmok.
  { destruct Hmd as [-> | (Hn & _)]; [|done].
    split; [done|]. split; [by left|].
    split; [by intros ???; exfalso; eauto|]. split; [done|]. done. }
  destruct (Hmok eq_refl) as [Hmkerr Hdirs1].
  pose proof (os_WriteFile_spec env outPath ob fs1) as (Hwd & Hwo & Hwok & Hwc).
  destruct (os_WriteFile env outPath ob fs1) as [fs2 [e|]] eqn:Hwr;
    cbn [fst snd] in Hwd, Hwo, Hwok, Hwc.
  - split; [by intros p Hp; rewrite Hwo, Hmf|].
    split; [right; by rewrite Hwd|].
    split; [by intros ???; exfalso; eauto|].
    split; [intros _; by exists b, raw, ob|]. split; [done|].
    intros _ Hchg.
    destruct Hwc as [-> | [[Hsn _] | (n & e' & Hn & [= <-] & Hfiles)]].
    + by rewrite Hmf in Hchg.
    + discriminate Hsn.
    + exists b, raw, ob, n, e. rewrite Hfiles, Hmf. done.
  - destruct (Hwok eq_refl) as [Hwe Hfiles].
    split; [by intros p Hp; rewrite Hwo, Hmf|].
    split; [right; by rewrite Hwd|].
    split; [by intros ???; exfalso; eauto|].
    split; [intros _; by exists b, raw, ob|]. split; [|done].
    intros _. right. exists b, raw, ob.
    rewrite Hfiles, Hmf, Hwd. done.
Qed.

End Index.

End BuildIndexFacts.

(** ** The meals file and the meals route *)

Module ServerFacts.
Import GoStrings Values World Store Properties Server CacheAside.

Lemma first_candidate_spec (os : OSEnv) (cs : list string) :
  Forall (fun c => c <> "") cs ->
  (first_candidate os cs = "" <-> Forall (fun c => Stat_ok os c = false) cs) /\
  (first_candidate os cs <> "" ->
   exists before after,
     cs = before ++ first_candidate os cs :: after /\
     Stat_ok os (first_candidate os cs) = true /\
     Forall (fun c => Stat_ok os c = false) before).
Proof.
  induction cs as [|c cs IH]; intros Hne.
  - split; [done|]. done.
  - apply Forall_cons in Hne as [Hc Hne]. destruct (IH Hne) as [IH1 IH2].
    cbn [first_candidate]. destruct (Stat_ok os c) eqn:Hs.
    + split.
      * split; [done|]. intros [H _]%Forall_cons. congruence.
      * intros _. exists [], cs. done.
    + split.
      * rewrite IH1. split; [by constructor | by intros [_ ?]%Forall_cons].
      * intros H. destruct (IH2 H) as (before & after & Hcs & Hok & Hbefore).
        exists (c :: before), after. split; [by rewrite Hcs at 1|].
        split; [done | by constructor].
Qed.

(** X16.  [resolveMealsFile] returns a path on which [os.Stat] succeeds, or
    the empty string: the path of MEALS_FILE when it is set and there,
    otherwise the first of the four candidates that is there, and the
    empty string exactly when none of these is. *)
Theorem resolveMealsFile_spec (os : OSEnv) :
  let p := Getenv os "MEALS_FILE" in
  let r := resolveMealsFile os in
  (p <> "" -> Stat_ok os p = true -> r = p) /\
  (r <> "" -> Stat_ok os r = true /\ (r = p \/ r ∈ candidates)) /\
  (r = "" <->
   (p = "" \/ Stat_ok os p = false) /\
   Forall (fun c => Stat_ok os c = false) candidates) /\
  ((p = "" \/ Stat_ok os p = false) -> r <> "" ->
   exists before after,
     candidates = before ++ r :: after /\
     Forall (fun c => Stat_ok os c = false) before).
Proof.
  cbn zeta. unfold resolveMealsFile.
  assert (Hc : Forall (fun c => c <> "") candidates).
  { unfold candidates. repeat constructor; discriminate. }
  destruct (first_candidate_spec os candidates Hc) as [H1 H2].
  destruct (String.eqb_spec (Getenv os "MEALS_FILE") "") as [Hp|Hp];
    cbn [negb andb].
  - split; [done|]. split; [|split].
    + intros Hr. destruct (H2 Hr) as (before & after & Hcs & Hok & _).
      split; [done|]. right.
      assert (Hin : first_candidate os candidates
                    ∈ before ++ first_candidate os candidates :: after)
        by (apply elem_of_app; right; by left).
      by rewrite <- Hcs in Hin.
    + rewrite H1. split; [by split; [left|] | by intros [_ ?]].
    + intros _ Hr. destruct (H2 Hr) as (before & after & Hcs & _ & Hb).
      by exists before, after.
  - destruct (Stat_ok os (Getenv os "MEALS_FILE")) eqn:Hs.
    + split; [done|]. split; [by intros _; split; [|left]|]. split.
      * split; [done|]. intros [[?|?] _]; congruence.
      * intros [?|?]; congruence.
    + split; [done|]. split; [|split].
      * intros Hr. destruct (H2 Hr) as (before & after & Hcs & Hok & _).
        split; [done|]. right.
        assert (Hin : first_candidate os candidates
                      ∈ before ++ first_candidate os candidates :: after)
          by (apply elem_of_app; right; by left).
        by rewrite <- Hcs in Hin.
      * rewrite H1. split; [by split; [right|] | by intros [_ ?]].
      * intros _ Hr. destruct (H2 Hr) as (before & after & Hcs & _ & Hb).
        by exists before, after.
Qed.

Section Route.
Variable json_Marshal : gmap string value -> option string.
Variable json_Unmarshal : string -> option (option (gmap string value)).

Abbreviation route := (mealsRoute json_Marshal json_Unmarshal).

(** X17.  The meals route answers 503 exactly when there is no store, and
    then calls no backend.  With a store, it answers 500 only when the
    read of the primary store failed, with the text of that error; a
    failure of the cache alone never gives a 500; and a 200 carries a
    document. *)
Theorem mealsRoute_status (store : option Store) (env : GetEnv) (id : string)
    (w : world) :
  let '(w', (status, b)) := route store env id w in
  (status = 503 <-> store = None) /\
  (store = None -> w' = w) /\
  (status = 500 ->
   exists e, find_err env = Some e /\ error_eqb e ErrNoDocuments = false /\
             b = ErrorBody (Error e)) /\
  (find_err env = None -> store <> None -> status = 200 \/ status = 404) /\
  (status = 200 -> exists m, b = MealBody m) /\
  (status = 503 \/ status = 500 \/ status = 404 \/ status = 200).
Proof.
  unfold mealsRoute. destruct store as [s|].
  2:{ split_and!; try done. by left. }
  unfold GetMealByID.
  destruct (try_cache json_Unmarshal s env ("meal:" +:+ id) w) as [w1 [out|]].
  { destruct out as [m|]; split_and!; try done; try (split; done).
    - intros _ _. by left.
    - intros _. by exists m.
    - do 3 right. done.
    - intros _ _. by right.
    - right. right. by left. }
  unfold FindOne. destruct (find_err env) as [err|].
  - destruct (error_eqb err ErrNoDocuments) eqn:E; split_and!; try done;
      try (split; done).
    + right. right. by left.
    + intros _. by exists err.
    + right. by left.
  - cbn [record_call meals].
    destruct (find_id id (meals w1)) as [d|]; split_and!; try done;
      try (split; done).
    + intros _ _. by left.
    + intros _. by exists d.
    + do 3 right. done.
    + intros _ _. by right.
    + right. right. by left.
Qed.

End Route.

End ServerFacts.

(** ** The recipe import handler *)

Module RecipesImportFacts.
Import GoStrings Values World Store Recipes RecipesImport HandlerNotions.

Lemma hlog_fields (sugar : option SugaredLogger) (e : entry) (st : sqldb) :
  committed (hlog sugar e st) = committed st /\ tx (hlog sugar e st) = tx st.
Proof. by destruct sugar. Qed.

(** The loop over the ingredients: either it stops at a failed insert,
    the transaction rolled back, or it has added one row for each
    ingredient, in order, to the tables the transaction sees. *)
Lemma insert_ingredients_spec (sugar : option SugaredLogger) (env : ImportMealEnv)
    (recipeID : nat) (ings : list ImportIngredient) :
  forall (i : nat) (st : sqldb),
    match insert_ingredients sugar env recipeID i ings st with
    | inl st' =>
        committed st' = committed st /\ tx st' = None /\
        exists k, k < length ings /\ insert_ingredient_err env (i + k) <> None
    | inr st' =>
        st' = in_tx (fun t => MkTables (recipes t)
                                (recipe_ingredients t
                                 ++ map (ingredient_of recipeID) ings)) st /\
        forall k, k < length ings -> insert_ingredient_err env (i + k) = None
    end.
Proof.
  induction ings as [|ing ings IH]; intros i st.
  - cbn [insert_ingredients]. split; [|cbn; lia].
    destruct st as [c [[r ri]|] l]; unfold in_tx; cbn; [|done].
    by rewrite app_nil_r.
  - cbn [insert_ingredients].
    destruct (parseMeasure (Measure ing)) as [q u] eqn:Hqu.
    destruct (insert_ingredient_err env i) as [err|] eqn:Herr.
    + unfold Rollback. cbn [committed tx].
      destruct (hlog_fields sugar
                  (Entry ErrorLevel "failed to insert ingredient (import)"
                     [("error", FError err); ("name", FString (Name ing))]) st)
        as [-> _].
      split; [done|]. split; [done|]. exists 0. rewrite Nat.add_0_r, Herr.
      split; [cbn; lia | done].
    + specialize (IH (S i)
                    (in_tx (add_ingredient (MkIngredientRow recipeID (Name ing) q u)) st)).
      destruct (insert_ingredients sugar env recipeID (S i) ings _) as [st'|st'].
      * destruct IH as (Hc & Ht & k & Hk & Hf). split; [done|]. split; [done|].
        exists (S k). rewrite Nat.add_succ_r. split; [cbn; lia | done].
      * destruct IH as [-> Hall]. split.
        -- unfold in_tx, ingredient_of. cbn [committed tx hlogs map].
           rewrite Hqu. cbn [fst snd].
           destruct (tx st) as [[r ri]|]; cbn; [|done].
           by rewrite <- app_assoc.
        -- intros [|k] Hk; [by rewrite Nat.add_0_r|].
           rewrite Nat.add_succ_r. apply (Hall k). cbn in Hk. lia.
Qed.

(** X18.  The handler is all or nothing: whatever fails, no transaction is
    left open, and unless the answer is 201 the committed tables are
    those before the call. *)
Theorem ImportMeal_atomic (sugar : option SugaredLogger) (env : ImportMealEnv)
    (st : sqldb) :
  tx st = None ->
  let '(st', (status, a)) := ImportMealHandler sugar env st in
  tx st' = None /\
  (status <> 201 -> committed st' = committed st) /\
  (status = 201 \/ status = 400 \/ status = 500).
Proof.
  intros Htx. unfold ImportMealHandler.
  destruct (bind env) as [e|req]; [split_and!; try done; right; by left|].
  destruct (begin_err env) as [e|]; [split_and!; try done; by do 2 right|].
  unfold import_in_tx.
  destruct (insert_recipe_err env) as [e|].
  { cbn [Rollback committed tx].
    rewrite (proj1 (hlog_fields sugar _ (Begin st))).
    split_and!; try done. by do 2 right. }
  destruct (last_insert_id_err env) as [e|].
  { cbn [Rollback committed tx].
    rewrite (proj1 (hlog_fields sugar _ _)).
    split_and!; try done. by do 2 right. }
  pose proof (insert_ingredients_spec sugar env (assigned_id env)
                (Ingredients req) 0
                (in_tx (add_recipe
                          (MkRecipeRow (assigned_id env) (Title req)
                             (Description req) (Instructions req)
                             (YoutubeLink req) (Servings req) (PrepTime req)
                             (CookTime req))) (Begin st))) as Hing.
  destruct (insert_ingredients sugar env (assigned_id env) 0 (Ingredients req) _)
    as [st2|st2].
  { destruct Hing as (Hc & Ht & _). split_and!; try done. by do 2 right. }
  destruct Hing as [-> _].
  destruct (commit_err env) as [e|].
  - destruct (hlog_fields sugar
                (Entry ErrorLevel "failed to commit import tx" [("error", FError e)])
                (Commit (Some e)
                   (in_tx (fun t => MkTables (recipes t)
                                      (recipe_ingredients t
                                       ++ map (ingredient_of (assigned_id env))
                                            (Ingredients req)))
                      (in_tx (add_recipe
                                (MkRecipeRow (assigned_id env) (Title req)
                                   (Description req) (Instructions req)
                                   (YoutubeLink req) (Servings req)
                                   (PrepTime req) (CookTime req))) (Begin st)))))
      as [-> ->].
    split_and!; try done. by do 2 right.
  - split_and!; try done. by left.
Qed.

(** X19.  When every step succeeds, the answer is 201 with the id of the new
    recipe, and the committed tables have gained the recipe row and one
    ingredient row for each ingredient of the request, in order, with the
    quantity and the unit that [parseMeasure] gives for its measure. *)
Theorem ImportMeal_success (sugar : option SugaredLogger) (env : ImportMealEnv)
    (req : ImportMealRequest) (st : sqldb) :
  all_succeed env req ->
  ImportMealHandler sugar env st
  = (MkSqldb
       (MkTables (recipes (committed st) ++ [recipe_of env req])
          (recipe_ingredients (committed st)
           ++ map (ingredient_of (assigned_id env)) (Ingredients req)))
       None (hlogs st),
     (201, RecipeID (assigned_id env))).
Proof.
  intros (Hb & Hbegin & Hrec & Hid & Hing & Hcommit).
  unfold ImportMealHandler, import_in_tx. rewrite Hb, Hbegin, Hrec, Hid.
  pose proof (insert_ingredients_spec sugar env (assigned_id env)
                (Ingredients req) 0
                (in_tx (add_recipe
                          (MkRecipeRow (assigned_id env) (Title req)
                             (Description req) (Instructions req)
                             (YoutubeLink req) (Servings req) (PrepTime req)
                             (CookTime req))) (Begin st))) as Hspec.
  destruct (insert_ingredients sugar env (assigned_id env) 0 (Ingredients req) _)
    as [st2|st2].
  - destruct Hspec as (_ & _ & k & Hk & Hf). destruct Hf. by apply Hing.
  - destruct Hspec as [-> _]. by rewrite Hcommit.
Qed.

(** X20.  The answer is 201 only when every step succeeded. *)
Theorem ImportMeal_created_only_if (sugar : option SugaredLogger)
    (env : ImportMealEnv) (st : sqldb) :
  fst (snd (ImportMealHandler sugar env st)) = 201 ->
  exists req, all_succeed env req.
Proof.
  unfold ImportMealHandler, all_succeed.
  destruct (bind env) as [e|req]; [done|].
  destruct (begin_err env) as [e|]; [done|].
  unfold import_in_tx.
  destruct (insert_recipe_err env) as [e|]; [done|].
  destruct (last_insert_id_err env) as [e|]; [done|].
  pose proof (insert_ingredients_spec sugar env (assigned_id env)
                (Ingredients req) 0
                (in_tx (add_recipe
                          (MkRecipeRow (assigned_id env) (Title req)
                             (Description req) (Instructions req)
                             (YoutubeLink req) (Servings req) (PrepTime req)
                             (CookTime req))) (Begin st))) as Hspec.
  destruct (insert_ingredients sugar env (assigned_id env) 0 (Ingredients req) _)
    as [st2|st2]; [done|].
  destruct Hspec as [_ Hall].
  destruct (commit_err env) as [e|]; [done|].
  intros _. exists req. split_and!; try done.
Qed.

End RecipesImportFacts.

(** ** Instances of the further properties *)

Module MoreSamples.
Import GoStrings Values World Store Properties CollectionFacts ImportFacts
  Idempotence CacheAside StoreMore LookupMore HandlerNotions.

Lemma import_calls_and_cache_witness :
  calls (fst (import_records no_Sprint store0 env_fail_second 0
                [meal_a; meal_numeric_id; meal_b; meal_a] world0))
  = [MongoUpdateOne "52772"; MongoUpdateOne "52773"].
Proof.
  destruct (import_calls_and_cache no_Sprint store0 env_fail_second 0
              [meal_a; meal_numeric_id; meal_b; meal_a] world0)
    as (_ & _ & _ & a & _ & Hcalls & _ & _ & Hfail).
  destruct (Hfail (Err "connection refused") eq_refl) as (i & -> & Hi).
  destruct i as [|[|i]]; [discriminate Hi | exact Hcalls | discriminate Hi].
Defined.

Lemma import_succeeds_iff_witness :
  snd (import_records no_Sprint store0 env_fail_second 0 [meal_a; meal_b] world0)
  <> None.
Proof.
  intros H.
  pose proof (proj1 (import_succeeds_iff no_Sprint store0 env_fail_second 0
                       [meal_a; meal_b] world0) H 1) as H1.
  assert (Hlt : 1 < upserts [meal_a; meal_b]) by (vm_compute; lia).
  specialize (H1 Hlt). discriminate H1.
Defined.

Lemma import_never_deletes_witness :
  is_Some (find_id "52772"
             (meals (fst (import_records no_Sprint store0 env_fail_second 0
                            [meal_b; meal_a] world_a)))).
Proof.
  pose proof (import_never_deletes no_Sprint store0 env_fail_second 0
                [meal_b; meal_a] world_a "52772") as H.
  cbn zeta in H. apply (proj1 H). exists doc_a. reflexivity.
Defined.

Lemma import_other_keys_witness :
  find_id "52772"
    (meals (fst (import_records no_Sprint store0 (env_at 1000%Z) 0 [meal_b] world_a)))
  = Some doc_a.
Proof.
  rewrite (import_other_keys no_Sprint store0 (env_at 1000%Z) 0 [meal_b] world_a
             "52772" eq_refl).
  reflexivity.
Defined.

Lemma Get_stale_after_import_witness :
  let w' := fst (import_records no_Sprint store_cached (env_at 1000%Z) 0
                   [meal_a] world_cached) in
  snd (GetMealByID sample_Marshal sample_Unmarshal store_cached
         (get_env 5000%Z) "52772" w')
  = (Some doc_a, None).
Proof.
  cbn zeta.
  rewrite (Get_stale_after_import no_Sprint sample_Marshal sample_Unmarshal
             store_cached (NewClient "redis:6379") (env_at 1000%Z) 0 [meal_a]
             (get_env 5000%Z) "52772" "{sample}" 86400000000000%Z world_cached
             (Some doc_a) eq_refl eq_refl eq_refl eq_refl eq_refl).
  reflexivity.
Defined.

Lemma import_then_Get_witness :
  exists d,
    snd (GetMealByID sample_Marshal sample_Unmarshal store0 (get_env 0%Z) "52773"
           (fst (import_records no_Sprint store0 (env_at 1000%Z) 0
                   [meal_a; meal_b] world0)))
    = (Some d, None) /\
    d !! "idMeal" = Some (VString "52773") /\
    d !! "strMeal" = Some (VString "Honey Teriyaki Salmon") /\
    d !! "strArea" = Some (VString "").
Proof.
  destruct (import_then_Get no_Sprint sample_Marshal sample_Unmarshal store0
              (env_at 1000%Z) [meal_a; meal_b] (get_env 0%Z) "52773" world0 meal_b
              (fun _ => eq_refl) eq_refl eq_refl eq_refl)
    as (d & Hres & _ & Hid & Hfields).
  exists d. split; [exact Hres|]. split; [exact Hid|]. split.
  - rewrite (Hfields "strMeal"); [reflexivity|].
    unfold str_fields. apply elem_of_cons. by left.
  - rewrite (Hfields "strArea"); [reflexivity|].
    unfold str_fields. do 2 (apply elem_of_cons; right). apply elem_of_cons. by left.
Defined.

Lemma Get_read_only_witness :
  meals (fst (GetMealByID sample_Marshal sample_Unmarshal store_cached
                (get_env 0%Z) "52772" world_a))
  = meals world_a.
Proof.
  pose proof (Get_read_only sample_Marshal sample_Unmarshal store_cached
                (get_env 0%Z) "52772" world_a) as H.
  cbn zeta in H. exact (proj1 H).
Defined.

Lemma cache_backed_invariant_witness :
  cache_backed world_cached.
Proof.
  apply (proj1 (proj2 (cache_backed_invariant no_Sprint sample_Marshal
                         sample_Unmarshal))).
  intros id b e H. unfold world_a in H. cbn [cache] in H.
  by rewrite lookup_empty in H.
Defined.

Lemma New_outcomes_witness :
  snd (snd (New start_no_redis "mongodb://mongo:27017" "meal_prep" "redis:6379"
              (Some Sugar) world0)) = None.
Proof.
  pose proof (New_outcomes start_no_redis "mongodb://mongo:27017" "meal_prep"
                "redis:6379" (Some Sugar) world0) as H.
  cbn zeta in H. apply (proj1 H). split; reflexivity.
Defined.

End MoreSamples.

Module ToolSamples.
Import GoStrings Values World Store Properties HandlerNotions
  BuildIndex BuildIndexFacts Server ServerFacts.

Lemma main_writes_witness :
  main no_Sprint sample_records sample_indent index_env_ok
    "all_meals.json" "public/meals_index.json" false fs_with_index
  = (fs_with_index, 0, [AlreadyExists "public/meals_index.json"]) /\
  main no_Sprint sample_records sample_indent index_env_disk_full
    "all_meals.json" "public/meals_index.json" true fs_with_index
  = (Fsys (<["public/meals_index.json" := "[in"]> files_with_index) {["public"]},
     2,
     [FailedWrite "public/meals_index.json"
        (Err "write public/meals_index.json: no space left on device")]).
Proof.
  split; [|reflexivity].
  pose proof (main_writes no_Sprint sample_records sample_indent index_env_ok
                "all_meals.json" "public/meals_index.json" false
                fs_with_index) as H.
  destruct (main no_Sprint sample_records sample_indent index_env_ok
              "all_meals.json" "public/meals_index.json" false fs_with_index)
    as [[fs' status] msgs].
  destruct H as (_ & _ & H & _).
  destruct H as (-> & -> & ->); [reflexivity | reflexivity | | reflexivity].
  left. exists "[old index]". reflexivity.
Defined.

Lemma resolveMealsFile_spec_witness :
  Stat_ok os_public_only (resolveMealsFile os_public_only) = true.
Proof.
  pose proof (resolveMealsFile_spec os_public_only) as H. cbn zeta in H.
  apply (proj1 (proj2 H)). vm_compute. discriminate.
Defined.

Lemma mealsRoute_status_witness :
  let status :=
    fst (snd (mealsRoute sample_Marshal sample_Unmarshal (Some store_cached)
                (MkGetEnv 0%Z (Some (Err "redis: connection pool timeout")) None None)
                "52772" world_a)) in
  status = 200 \/ status = 404.
Proof.
  pose proof (mealsRoute_status sample_Marshal sample_Unmarshal (Some store_cached)
                (MkGetEnv 0%Z (Some (Err "redis: connection pool timeout")) None None)
                "52772" world_a) as H.
  destruct (mealsRoute _ _ _ _ _ _) as [w' [status b]].
  destruct H as (_ & _ & _ & H & _). apply H; [reflexivity | discriminate].
Defined.

End ToolSamples.

Module HandlerSamples.
Import GoStrings Values World Store Recipes RecipesImport HandlerNotions
  RecipesImportFacts.

Lemma ImportMeal_atomic_witness :
  let r := ImportMealHandler (Some Sugar) env_second_ingredient_fails empty_db in
  committed (fst r) = committed empty_db /\ tx (fst r) = None.
Proof.
  pose proof (ImportMeal_atomic (Some Sugar) env_second_ingredient_fails empty_db
                eq_refl) as H.
  cbn zeta.
  destruct (ImportMealHandler (Some Sugar) env_second_ingredient_fails empty_db)
    as [st' [status a]] eqn:E.
  destruct H as (Htx & Hc & _). split; [|exact Htx].
  apply Hc. apply (f_equal (fun r => fst (snd r))) in E. vm_compute in E.
  subst status. discriminate.
Defined.

Lemma all_succeed_sample : all_succeed env_ok sample_request.
Proof. unfold all_succeed. split_and!; reflexivity. Qed.

Lemma ImportMeal_success_witness :
  recipe_ingredients
    (committed (fst (ImportMealHandler (Some Sugar) env_ok empty_db)))
  = [MkIngredientRow 7 "flour" (Some "1 1/2") (Some "cups");
     MkIngredientRow 7 "milk" (Some "1") (Some "/2 cup");
     MkIngredientRow 7 "salt" (Some "pinch") None].
Proof.
  rewrite (ImportMeal_success (Some Sugar) env_ok sample_request empty_db
             all_succeed_sample).
  vm_compute. reflexivity.
Defined.

Lemma ImportMeal_created_only_if_witness :
  exists req, all_succeed env_ok req.
Proof.
  apply (ImportMeal_created_only_if (Some Sugar) env_ok empty_db). reflexivity.
Defined.

End HandlerSamples.
